(** * scicode-analytics: the metrics pipeline of [scripts/expert_analytics.py]

    A shallow embedding of the name normalizer, the time-log parser and
    aggregator, the Airtable task ingestor, the cycle-time calculator and
    the AHT aggregation, followed by the properties established for them.

    Conventions of the embedding.
    - A Python [str] is the list of its Unicode code points ([list N]).
    - A Python [float] that results from exact arithmetic on integers is a
      rational ([Q]); binary rounding is outside the model, and so is the
      [OverflowError] that the conversion of an integer of more than 308
      digits to a float raises.
    - [str.lower], [str.strip] and [int] follow CPython 3.11 on every code
      point, with the tables of the Unicode character database 14.0.0.
    - A pandas timestamp ([datetime64[ns, UTC]]) is its number of
      nanoseconds since the epoch ([Z]); [NaT], [NaN] and [None] cells are
      [None].
    - A DataFrame with the default [RangeIndex] is the list of its rows; the
      index label of a row is its position. *)

From Stdlib Require Import String Ascii QArith.
From stdpp Require Import base list gmap sets.

Close Scope Q_scope.
Open Scope N_scope.
Open Scope nat_scope.

(** ** Python strings *)

Module PyStr.

Abbreviation pystr := (list N).

(** An ASCII literal as a code point list. *)
Definition py (s : String.string) : pystr :=
  map Ascii.N_of_ascii (String.list_ascii_of_string s).
Arguments py s%_string.

(** [not s] for a string. *)
Definition falsy (s : pystr) : bool :=
  match s with [] => true | _ => false end.

(** [str.isspace] for one code point: the characters [str.strip()] removes. *)
Definition is_space (c : N) : bool :=
  ((9 <=? c) && (c <=? 13) || (28 <=? c) && (c <=? 32) || (c =? 133)
   || (c =? 160) || (c =? 5760) || (8192 <=? c) && (c <=? 8202)
   || (c =? 8232) || (c =? 8233) || (c =? 8239) || (c =? 8287)
   || (c =? 12288))%N.

(** Membership in a table of inclusive code point ranges. *)
Definition in_ranges (table : list (N * N)) (c : N) : bool :=
  existsb (λ r, (r.1 <=? c) && (c <=? r.2))%N table.

(** The one-to-one lower-case mappings of the Unicode character database
    (version 14.0.0, the one of CPython 3.11), as runs: [(first, last,
    stride, target)] sends the code points [first], [first + stride], ...
    up to [last] to [target], [target + stride], ... *)
Definition lower_runs : list (N * N * N * N) :=
  [
    (65, 90, 1, 97); (192, 214, 1, 224); (216, 222, 1, 248); (256, 302, 2, 257);
    (306, 310, 2, 307); (313, 327, 2, 314); (330, 374, 2, 331); (376, 376, 1, 255);
    (377, 381, 2, 378); (385, 385, 1, 595); (386, 388, 2, 387); (390, 390, 1, 596);
    (391, 391, 1, 392); (393, 394, 1, 598); (395, 395, 1, 396); (398, 398, 1, 477);
    (399, 399, 1, 601); (400, 400, 1, 603); (401, 401, 1, 402); (403, 403, 1, 608);
    (404, 404, 1, 611); (406, 406, 1, 617); (407, 407, 1, 616); (408, 408, 1, 409);
    (412, 412, 1, 623); (413, 413, 1, 626); (415, 415, 1, 629); (416, 420, 2, 417);
    (422, 422, 1, 640); (423, 423, 1, 424); (425, 425, 1, 643); (428, 428, 1, 429);
    (430, 430, 1, 648); (431, 431, 1, 432); (433, 434, 1, 650); (435, 437, 2, 436);
    (439, 439, 1, 658); (440, 440, 1, 441); (444, 444, 1, 445); (452, 452, 1, 454);
    (453, 453, 1, 454); (455, 455, 1, 457); (456, 456, 1, 457); (458, 458, 1, 460);
    (459, 475, 2, 460); (478, 494, 2, 479); (497, 497, 1, 499); (498, 500, 2, 499);
    (502, 502, 1, 405); (503, 503, 1, 447); (504, 542, 2, 505); (544, 544, 1, 414);
    (546, 562, 2, 547); (570, 570, 1, 11365); (571, 571, 1, 572); (573, 573, 1, 410);
    (574, 574, 1, 11366); (577, 577, 1, 578); (579, 579, 1, 384); (580, 580, 1, 649);
    (581, 581, 1, 652); (582, 590, 2, 583); (880, 882, 2, 881); (886, 886, 1, 887);
    (895, 895, 1, 1011); (902, 902, 1, 940); (904, 906, 1, 941); (908, 908, 1, 972);
    (910, 911, 1, 973); (913, 929, 1, 945); (932, 939, 1, 964); (975, 975, 1, 983);
    (984, 1006, 2, 985); (1012, 1012, 1, 952); (1015, 1015, 1, 1016); (1017, 1017, 1, 1010);
    (1018, 1018, 1, 1019); (1021, 1023, 1, 891); (1024, 1039, 1, 1104); (1040, 1071, 1, 1072);
    (1120, 1152, 2, 1121); (1162, 1214, 2, 1163); (1216, 1216, 1, 1231); (1217, 1229, 2, 1218);
    (1232, 1326, 2, 1233); (1329, 1366, 1, 1377); (4256, 4293, 1, 11520); (4295, 4295, 1, 11559);
    (4301, 4301, 1, 11565); (5024, 5103, 1, 43888); (5104, 5109, 1, 5112); (7312, 7354, 1, 4304);
    (7357, 7359, 1, 4349); (7680, 7828, 2, 7681); (7838, 7838, 1, 223); (7840, 7934, 2, 7841);
    (7944, 7951, 1, 7936); (7960, 7965, 1, 7952); (7976, 7983, 1, 7968); (7992, 7999, 1, 7984);
    (8008, 8013, 1, 8000); (8025, 8031, 2, 8017); (8040, 8047, 1, 8032); (8072, 8079, 1, 8064);
    (8088, 8095, 1, 8080); (8104, 8111, 1, 8096); (8120, 8121, 1, 8112); (8122, 8123, 1, 8048);
    (8124, 8124, 1, 8115); (8136, 8139, 1, 8050); (8140, 8140, 1, 8131); (8152, 8153, 1, 8144);
    (8154, 8155, 1, 8054); (8168, 8169, 1, 8160); (8170, 8171, 1, 8058); (8172, 8172, 1, 8165);
    (8184, 8185, 1, 8056); (8186, 8187, 1, 8060); (8188, 8188, 1, 8179); (8486, 8486, 1, 969);
    (8490, 8490, 1, 107); (8491, 8491, 1, 229); (8498, 8498, 1, 8526); (8544, 8559, 1, 8560);
    (8579, 8579, 1, 8580); (9398, 9423, 1, 9424); (11264, 11311, 1, 11312); (11360, 11360, 1, 11361);
    (11362, 11362, 1, 619); (11363, 11363, 1, 7549); (11364, 11364, 1, 637); (11367, 11371, 2, 11368);
    (11373, 11373, 1, 593); (11374, 11374, 1, 625); (11375, 11375, 1, 592); (11376, 11376, 1, 594);
    (11378, 11378, 1, 11379); (11381, 11381, 1, 11382); (11390, 11391, 1, 575); (11392, 11490, 2, 11393);
    (11499, 11501, 2, 11500); (11506, 11506, 1, 11507); (42560, 42604, 2, 42561); (42624, 42650, 2, 42625);
    (42786, 42798, 2, 42787); (42802, 42862, 2, 42803); (42873, 42875, 2, 42874); (42877, 42877, 1, 7545);
    (42878, 42886, 2, 42879); (42891, 42891, 1, 42892); (42893, 42893, 1, 613); (42896, 42898, 2, 42897);
    (42902, 42920, 2, 42903); (42922, 42922, 1, 614); (42923, 42923, 1, 604); (42924, 42924, 1, 609);
    (42925, 42925, 1, 620); (42926, 42926, 1, 618); (42928, 42928, 1, 670); (42929, 42929, 1, 647);
    (42930, 42930, 1, 669); (42931, 42931, 1, 43859); (42932, 42946, 2, 42933); (42948, 42948, 1, 42900);
    (42949, 42949, 1, 642); (42950, 42950, 1, 7566); (42951, 42953, 2, 42952); (42960, 42960, 1, 42961);
    (42966, 42968, 2, 42967); (42997, 42997, 1, 42998); (65313, 65338, 1, 65345); (66560, 66599, 1, 66600);
    (66736, 66771, 1, 66776); (66928, 66964, 2, 66967); (66929, 66937, 2, 66968); (66941, 66953, 2, 66980);
    (66957, 66961, 2, 66996); (66965, 66965, 1, 67004); (68736, 68786, 1, 68800); (71840, 71871, 1, 71872);
    (93760, 93791, 1, 93792); (125184, 125217, 1, 125218)
  ]%N.

(** The full lower-case mapping of one code point ([_PyUnicode_ToLowerFull]):
    U+0130 gives two code points, the runs give one, every other code
    point is its own lower case. *)
Definition to_lower_full (c : N) : pystr :=
  if (c =? 304)%N then [105; 775]%N
  else
    match find (λ r, let '(lo, hi, stride, _) := r in
                     if (lo <=? c)%N
                     then if (c <=? hi)%N then ((c - lo) mod stride =? 0)%N
                          else false
                     else false)
               lower_runs with
    | Some (lo, _, _, target) => [target + (c - lo)]%N
    | None => [c]
    end.

(** The Case_Ignorable property. *)
Definition case_ignorable_ranges : list (N * N) :=
  [
    (39, 39); (46, 46); (58, 58); (94, 94); (96, 96); (168, 168);
    (173, 173); (175, 175); (180, 180); (183, 184); (688, 879); (884, 885);
    (890, 890); (900, 901); (903, 903); (1155, 1161); (1369, 1369); (1375, 1375);
    (1425, 1469); (1471, 1471); (1473, 1474); (1476, 1477); (1479, 1479); (1524, 1524);
    (1536, 1541); (1552, 1562); (1564, 1564); (1600, 1600); (1611, 1631); (1648, 1648);
    (1750, 1757); (1759, 1768); (1770, 1773); (1807, 1807); (1809, 1809); (1840, 1866);
    (1958, 1968); (2027, 2037); (2042, 2042); (2045, 2045); (2070, 2093); (2137, 2139);
    (2184, 2184); (2192, 2193); (2200, 2207); (2249, 2306); (2362, 2362); (2364, 2364);
    (2369, 2376); (2381, 2381); (2385, 2391); (2402, 2403); (2417, 2417); (2433, 2433);
    (2492, 2492); (2497, 2500); (2509, 2509); (2530, 2531); (2558, 2558); (2561, 2562);
    (2620, 2620); (2625, 2626); (2631, 2632); (2635, 2637); (2641, 2641); (2672, 2673);
    (2677, 2677); (2689, 2690); (2748, 2748); (2753, 2757); (2759, 2760); (2765, 2765);
    (2786, 2787); (2810, 2815); (2817, 2817); (2876, 2876); (2879, 2879); (2881, 2884);
    (2893, 2893); (2901, 2902); (2914, 2915); (2946, 2946); (3008, 3008); (3021, 3021);
    (3072, 3072); (3076, 3076); (3132, 3132); (3134, 3136); (3142, 3144); (3146, 3149);
    (3157, 3158); (3170, 3171); (3201, 3201); (3260, 3260); (3263, 3263); (3270, 3270);
    (3276, 3277); (3298, 3299); (3328, 3329); (3387, 3388); (3393, 3396); (3405, 3405);
    (3426, 3427); (3457, 3457); (3530, 3530); (3538, 3540); (3542, 3542); (3633, 3633);
    (3636, 3642); (3654, 3662); (3761, 3761); (3764, 3772); (3782, 3782); (3784, 3789);
    (3864, 3865); (3893, 3893); (3895, 3895); (3897, 3897); (3953, 3966); (3968, 3972);
    (3974, 3975); (3981, 3991); (3993, 4028); (4038, 4038); (4141, 4144); (4146, 4151);
    (4153, 4154); (4157, 4158); (4184, 4185); (4190, 4192); (4209, 4212); (4226, 4226);
    (4229, 4230); (4237, 4237); (4253, 4253); (4348, 4348); (4957, 4959); (5906, 5908);
    (5938, 5939); (5970, 5971); (6002, 6003); (6068, 6069); (6071, 6077); (6086, 6086);
    (6089, 6099); (6103, 6103); (6109, 6109); (6155, 6159); (6211, 6211); (6277, 6278);
    (6313, 6313); (6432, 6434); (6439, 6440); (6450, 6450); (6457, 6459); (6679, 6680);
    (6683, 6683); (6742, 6742); (6744, 6750); (6752, 6752); (6754, 6754); (6757, 6764);
    (6771, 6780); (6783, 6783); (6823, 6823); (6832, 6862); (6912, 6915); (6964, 6964);
    (6966, 6970); (6972, 6972); (6978, 6978); (7019, 7027); (7040, 7041); (7074, 7077);
    (7080, 7081); (7083, 7085); (7142, 7142); (7144, 7145); (7149, 7149); (7151, 7153);
    (7212, 7219); (7222, 7223); (7288, 7293); (7376, 7378); (7380, 7392); (7394, 7400);
    (7405, 7405); (7412, 7412); (7416, 7417); (7468, 7530); (7544, 7544); (7579, 7679);
    (8125, 8125); (8127, 8129); (8141, 8143); (8157, 8159); (8173, 8175); (8189, 8190);
    (8203, 8207); (8216, 8217); (8228, 8228); (8231, 8231); (8234, 8238); (8288, 8292);
    (8294, 8303); (8305, 8305); (8319, 8319); (8336, 8348); (8400, 8432); (11388, 11389);
    (11503, 11505); (11631, 11631); (11647, 11647); (11744, 11775); (11823, 11823); (12293, 12293);
    (12330, 12333); (12337, 12341); (12347, 12347); (12441, 12446); (12540, 12542); (40981, 40981);
    (42232, 42237); (42508, 42508); (42607, 42610); (42612, 42621); (42623, 42623); (42652, 42655);
    (42736, 42737); (42752, 42785); (42864, 42864); (42888, 42890); (42994, 42996); (43000, 43001);
    (43010, 43010); (43014, 43014); (43019, 43019); (43045, 43046); (43052, 43052); (43204, 43205);
    (43232, 43249); (43263, 43263); (43302, 43309); (43335, 43345); (43392, 43394); (43443, 43443);
    (43446, 43449); (43452, 43453); (43471, 43471); (43493, 43494); (43561, 43566); (43569, 43570);
    (43573, 43574); (43587, 43587); (43596, 43596); (43632, 43632); (43644, 43644); (43696, 43696);
    (43698, 43700); (43703, 43704); (43710, 43711); (43713, 43713); (43741, 43741); (43756, 43757);
    (43763, 43764); (43766, 43766); (43867, 43871); (43881, 43883); (44005, 44005); (44008, 44008);
    (44013, 44013); (64286, 64286); (64434, 64450); (65024, 65039); (65043, 65043); (65056, 65071);
    (65106, 65106); (65109, 65109); (65279, 65279); (65287, 65287); (65294, 65294); (65306, 65306);
    (65342, 65342); (65344, 65344); (65392, 65392); (65438, 65439); (65507, 65507); (65529, 65531);
    (66045, 66045); (66272, 66272); (66422, 66426); (67456, 67461); (67463, 67504); (67506, 67514);
    (68097, 68099); (68101, 68102); (68108, 68111); (68152, 68154); (68159, 68159); (68325, 68326);
    (68900, 68903); (69291, 69292); (69446, 69456); (69506, 69509); (69633, 69633); (69688, 69702);
    (69744, 69744); (69747, 69748); (69759, 69761); (69811, 69814); (69817, 69818); (69821, 69821);
    (69826, 69826); (69837, 69837); (69888, 69890); (69927, 69931); (69933, 69940); (70003, 70003);
    (70016, 70017); (70070, 70078); (70089, 70092); (70095, 70095); (70191, 70193); (70196, 70196);
    (70198, 70199); (70206, 70206); (70367, 70367); (70371, 70378); (70400, 70401); (70459, 70460);
    (70464, 70464); (70502, 70508); (70512, 70516); (70712, 70719); (70722, 70724); (70726, 70726);
    (70750, 70750); (70835, 70840); (70842, 70842); (70847, 70848); (70850, 70851); (71090, 71093);
    (71100, 71101); (71103, 71104); (71132, 71133); (71219, 71226); (71229, 71229); (71231, 71232);
    (71339, 71339); (71341, 71341); (71344, 71349); (71351, 71351); (71453, 71455); (71458, 71461);
    (71463, 71467); (71727, 71735); (71737, 71738); (71995, 71996); (71998, 71998); (72003, 72003);
    (72148, 72151); (72154, 72155); (72160, 72160); (72193, 72202); (72243, 72248); (72251, 72254);
    (72263, 72263); (72273, 72278); (72281, 72283); (72330, 72342); (72344, 72345); (72752, 72758);
    (72760, 72765); (72767, 72767); (72850, 72871); (72874, 72880); (72882, 72883); (72885, 72886);
    (73009, 73014); (73018, 73018); (73020, 73021); (73023, 73029); (73031, 73031); (73104, 73105);
    (73109, 73109); (73111, 73111); (73459, 73460); (78896, 78904); (92912, 92916); (92976, 92982);
    (92992, 92995); (94031, 94031); (94095, 94111); (94176, 94177); (94179, 94180); (110576, 110579);
    (110581, 110587); (110589, 110590); (113821, 113822); (113824, 113827); (118528, 118573); (118576, 118598);
    (119143, 119145); (119155, 119170); (119173, 119179); (119210, 119213); (119362, 119364); (121344, 121398);
    (121403, 121452); (121461, 121461); (121476, 121476); (121499, 121503); (121505, 121519); (122880, 122886);
    (122888, 122904); (122907, 122913); (122915, 122916); (122918, 122922); (123184, 123197); (123566, 123566);
    (123628, 123631); (125136, 125142); (125252, 125259); (127995, 127999); (917505, 917505); (917536, 917631);
    (917760, 917999)
  ]%N.

(** The Cased property, on the code points that are not case-ignorable:
    the only ones the scan around a capital sigma tests it on. *)
Definition cased_ranges : list (N * N) :=
  [
    (65, 90); (97, 122); (170, 170); (181, 181); (186, 186); (192, 214);
    (216, 246); (248, 442); (444, 447); (452, 659); (661, 687); (880, 883);
    (886, 887); (891, 893); (895, 895); (902, 902); (904, 906); (908, 908);
    (910, 929); (931, 1013); (1015, 1153); (1162, 1327); (1329, 1366); (1376, 1416);
    (4256, 4293); (4295, 4295); (4301, 4301); (4304, 4346); (4349, 4351); (5024, 5109);
    (5112, 5117); (7296, 7304); (7312, 7354); (7357, 7359); (7424, 7467); (7531, 7543);
    (7545, 7578); (7680, 7957); (7960, 7965); (7968, 8005); (8008, 8013); (8016, 8023);
    (8025, 8025); (8027, 8027); (8029, 8029); (8031, 8061); (8064, 8116); (8118, 8124);
    (8126, 8126); (8130, 8132); (8134, 8140); (8144, 8147); (8150, 8155); (8160, 8172);
    (8178, 8180); (8182, 8188); (8450, 8450); (8455, 8455); (8458, 8467); (8469, 8469);
    (8473, 8477); (8484, 8484); (8486, 8486); (8488, 8488); (8490, 8493); (8495, 8500);
    (8505, 8505); (8508, 8511); (8517, 8521); (8526, 8526); (8544, 8575); (8579, 8580);
    (9398, 9449); (11264, 11387); (11390, 11492); (11499, 11502); (11506, 11507); (11520, 11557);
    (11559, 11559); (11565, 11565); (42560, 42605); (42624, 42651); (42786, 42863); (42865, 42887);
    (42891, 42894); (42896, 42954); (42960, 42961); (42963, 42963); (42965, 42969); (42997, 42998);
    (43002, 43002); (43824, 43866); (43872, 43880); (43888, 43967); (64256, 64262); (64275, 64279);
    (65313, 65338); (65345, 65370); (66560, 66639); (66736, 66771); (66776, 66811); (66928, 66938);
    (66940, 66954); (66956, 66962); (66964, 66965); (66967, 66977); (66979, 66993); (66995, 67001);
    (67003, 67004); (68736, 68786); (68800, 68850); (71840, 71903); (93760, 93823); (119808, 119892);
    (119894, 119964); (119966, 119967); (119970, 119970); (119973, 119974); (119977, 119980); (119982, 119993);
    (119995, 119995); (119997, 120003); (120005, 120069); (120071, 120074); (120077, 120084); (120086, 120092);
    (120094, 120121); (120123, 120126); (120128, 120132); (120134, 120134); (120138, 120144); (120146, 120485);
    (120488, 120512); (120514, 120538); (120540, 120570); (120572, 120596); (120598, 120628); (120630, 120654);
    (120656, 120686); (120688, 120712); (120714, 120744); (120746, 120770); (120772, 120779); (122624, 122633);
    (122635, 122654); (125184, 125251); (127280, 127305); (127312, 127337); (127344, 127369)
  ]%N.

Definition case_ignorable (c : N) : bool := in_ranges case_ignorable_ranges c.

Definition cased (c : N) : bool := in_ranges cased_ranges c.

Fixpoint skip_ignorable (s : pystr) : pystr :=
  match s with
  | c :: s' => if case_ignorable c then skip_ignorable s' else s
  | [] => []
  end.

(** [handle_capital_sigma]: a capital sigma is final when, case-ignorable
    code points set aside, a cased code point comes before it and none
    comes after it.  [before_rev] is the text before the sigma, nearest
    code point first. *)
Definition final_sigma (before_rev after : pystr) : bool :=
  match skip_ignorable before_rev with
  | c :: _ =>
      cased c
      && match skip_ignorable after with
         | d :: _ => negb (cased d)
         | [] => true
         end
  | [] => false
  end.

(** [str.lower]: the full mapping code point by code point, a capital
    sigma (U+03A3) becoming a final or a non-final small sigma by its
    context. *)
Fixpoint lower_from (before_rev s : pystr) : pystr :=
  match s with
  | [] => []
  | c :: rest =>
      (if (c =? 931)%N
       then [if final_sigma before_rev rest then 962%N else 963%N]
       else to_lower_full c)
      ++ lower_from (c :: before_rev) rest
  end.

Definition lower (s : pystr) : pystr := lower_from [] s.

Fixpoint lstrip (s : pystr) : pystr :=
  match s with
  | c :: s' => if is_space c then lstrip s' else s
  | [] => []
  end.

Definition rstrip (s : pystr) : pystr := rev (lstrip (rev s)).

(** [s.strip()] *)
Definition strip (s : pystr) : pystr := rstrip (lstrip s).

(** [s.strip(ch)] for a one-character argument. *)
Fixpoint lstrip_char (ch : N) (s : pystr) : pystr :=
  match s with
  | c :: s' => if (c =? ch)%N then lstrip_char ch s' else s
  | [] => []
  end.

Definition strip_char (ch : N) (s : pystr) : pystr :=
  rev (lstrip_char ch (rev (lstrip_char ch s))).

(** [s.split(sep)] for a one-character separator: never empty, given as the
    first field and the remaining ones. *)
Fixpoint split_on (sep : N) (s : pystr) : pystr * list pystr :=
  match s with
  | [] => ([], [])
  | c :: s' =>
      let '(hd, tl) := split_on sep s' in
      if (c =? sep)%N then ([], hd :: tl) else (c :: hd, tl)
  end.

Definition split (sep : N) (s : pystr) : list pystr :=
  let '(hd, tl) := split_on sep s in hd :: tl.

End PyStr.
Import PyStr.

(** ** Name normalizer *)

(** [EXPERT_ALIASES]: a dict literal, kept as its items in insertion order,
    the order [.items()] iterates in. *)
Definition EXPERT_ALIASES : list (pystr * pystr) :=
  [ (py "Totrakool Khongsap", py "Ta Khongsap");
    (py "totrakool khongsap", py "Ta Khongsap");
    (py "J" ++ [243%N] ++ py "zsef Vass", py "Jozsef Vass");
    (py "jozsef vass", py "Jozsef Vass");
    (py "j" ++ [243%N] ++ py "zsef vass", py "Jozsef Vass");
    (py "Behzad Ansarinejad - Physics", py "Behzad");
    (py "Behzad Ansarinejad", py "Behzad");
    (py "behzad ansarinejad - physics", py "Behzad");
    (py "behzad ansarinejad", py "Behzad") ].

Definition EXCLUDED_FROM_AHT : list pystr := [ py "Mahir Bansal" ].

(** [d[k]] guarded by [k in d], for a dict given by its items. *)
Definition dict_get (d : list (pystr * pystr)) (k : pystr) : option pystr :=
  (snd ∘ snd) <$> list_find (λ kv, kv.1 = k) d.

(** The [for alias, canonical in d.items()] loop of the normalizer: the
    canonical name of the first alias whose lower-cased form is
    [name_lower]. *)
Definition find_lower (d : list (pystr * pystr)) (name_lower : pystr)
  : option pystr :=
  (snd ∘ snd) <$> list_find (λ kv, lower kv.1 = name_lower) d.

(** The body of [normalize_expert_name], over the alias table [d]. *)
Definition normalize_with (d : list (pystr * pystr)) (name : pystr) : pystr :=
  if falsy name then name
  else
    match dict_get d name with
    | Some canonical => canonical
    | None =>
        let name_lower := strip (lower name) in
        match find_lower d name_lower with
        | Some canonical => canonical
        | None => strip name
        end
    end.

Definition normalize_expert_name (name : pystr) : pystr :=
  normalize_with EXPERT_ALIASES name.

(** ** Exceptions

    The two exception classes [parse_time_to_hours] catches, and a result
    type for code that may raise them. *)

Inductive exn := ValueError | IndexError.

Inductive res (A : Type) :=
| Ok (a : A)
| Raise (e : exn).
Arguments Ok {A} a.
Arguments Raise {A} e.

Definition res_bind {A B} (m : res A) (k : A → res B) : res B :=
  match m with
  | Ok a => k a
  | Raise e => Raise e
  end.

Notation "x <-- m ;; k" := (res_bind m (λ x, k))
  (at level 100, m at next level, right associativity, only parsing).

(** [l[i]] *)
Definition index {A} (l : list A) (i : nat) : res A :=
  match l !! i with
  | Some a => Ok a
  | None => Raise IndexError
  end.

(** ** [int(str)]

    Base-10 grammar of the builtin: surrounding whitespace is ignored, one
    optional sign, then decimal digits (of any script), single underscores
    allowed between two digits; a literal of more than 4300 digits is
    refused. *)

(** The whitespace [int] ignores around the literal: the ASCII characters
    of C's [isspace] and the Unicode whitespace beyond ASCII (U+001C to
    U+001F are not among them). *)
Definition int_space (c : N) : bool :=
  ((9 <=? c) && (c <=? 13) || (c =? 32) || (128 <=? c) && is_space c)%N.

Fixpoint lstrip_by (space : N → bool) (s : pystr) : pystr :=
  match s with
  | c :: s' => if space c then lstrip_by space s' else s
  | [] => []
  end.

Definition strip_by (space : N → bool) (s : pystr) : pystr :=
  rev (lstrip_by space (rev (lstrip_by space s))).

(** The code points of the digit zero of every script (the Decimal
    property of the Unicode character database, version 14.0.0); the nine
    code points after each are its digits one to nine. *)
Definition decimal_zeros : list N :=
  [
    48; 1632; 1776; 1984; 2406; 2534; 2662; 2790; 2918; 3046;
    3174; 3302; 3430; 3558; 3664; 3792; 3872; 4160; 4240; 6112;
    6160; 6470; 6608; 6784; 6800; 6992; 7088; 7232; 7248; 42528;
    43216; 43264; 43472; 43504; 43600; 44016; 65296; 66720; 68912; 69734;
    69872; 69942; 70096; 70384; 70736; 70864; 71248; 71360; 71472; 71904;
    72016; 72784; 73040; 73120; 92768; 92864; 93008; 120782; 120792; 120802;
    120812; 120822; 123200; 123632; 125264; 130032
  ]%N.

(** [Py_UNICODE_TODECIMAL] *)
Definition decimal_digit (c : N) : option Z :=
  (λ zero, Z.of_N (c - zero)) <$>
    find (λ zero, (zero <=? c) && (c <? zero + 10))%N decimal_zeros.

Fixpoint digits_value (acc : Z) (after_digit : bool) (s : pystr) : option Z :=
  match s with
  | [] => if after_digit then Some acc else None
  | c :: s' =>
      match decimal_digit c with
      | Some d => digits_value (10 * acc + d) true s'
      | None =>
          if (c =? 95)%N && after_digit then digits_value acc false s'
          else None
      end
  end.

(** The number of digits of a literal. *)
Definition count_digits (s : pystr) : nat :=
  length (filter (λ c, is_Some (decimal_digit c)) s).

(** [sys.get_int_max_str_digits()], at its default. *)
Definition int_max_str_digits : N := 4300.

Definition int (s : pystr) : res Z :=
  let body := strip_by int_space s in
  let signed :=
    match body with
    | c :: ds =>
        if (c =? 43)%N then digits_value 0 false ds
        else if (c =? 45)%N then Z.opp <$> digits_value 0 false ds
        else digits_value 0 false body
    | [] => None
    end in
  match signed with
  | Some z =>
      if (N.of_nat (count_digits body) <=? int_max_str_digits)%N then Ok z
      else Raise ValueError
  | None => Raise ValueError
  end.

(** ** Time-log aggregator *)

(** [parse_time_to_hours]: the argument is [None] for a cell [pd.isna]
    accepts (an empty CSV cell). *)
Definition parse_time_to_hours (time_str : option pystr) : Q :=
  match time_str with
  | None => 0%Q
  | Some s =>
      if falsy s then 0%Q
      else
        let attempt :=
          let parts := split 58 s in
          hours <-- (p0 <-- index parts 0 ;; int p0) ;;
          minutes <-- (if bool_decide (1 < length parts)
                       then p1 <-- index parts 1 ;; int p1
                       else Ok 0%Z) ;;
          Ok (inject_Z hours + inject_Z minutes / 60)%Q in
        match attempt with
        | Ok v => v
        | Raise ValueError => 0%Q
        | Raise IndexError => 0%Q
        end
  end.

(** One CSV path handed to [load_time_logs]. *)
Inductive csv_source :=
| NoFile
    (* [os.path.exists(path)] is false *)
| ReadError (msg : pystr)
    (* [pd.read_csv] raises *)
| OtherColumns
    (* 'Employee Name' or 'Total Time [h]' is not a column *)
| TimeSheet (rows : list (pystr * option pystr)).
    (* the cells of 'Employee Name' and 'Total Time [h]', row by row *)

Definition Qsum (l : list Q) : Q := foldr Qplus 0%Q l.

(** [pd.unique]: distinct values in order of first appearance. *)
Fixpoint unique (l : list pystr) : list pystr :=
  match l with
  | [] => []
  | x :: l' => x :: filter (λ y, y ≠ x) (unique l')
  end.

(** The rows a source contributes to [all_data]. *)
Definition source_rows (src : csv_source) : list (pystr * Q) :=
  match src with
  | TimeSheet rows =>
      map (λ r, (normalize_expert_name (strip_char 34 (strip r.1)),
                 parse_time_to_hours r.2)) rows
  | _ => []
  end.

Definition source_warnings (src : csv_source) : list pystr :=
  match src with
  | ReadError msg => [msg]
  | _ => []
  end.

(** [s[s['employee_name'] == name]['hours'].sum()] *)
Definition hours_of (rows : list (pystr * Q)) (name : pystr) : Q :=
  Qsum (snd <$> filter (λ r, r.1 = name) rows).

(** [load_time_logs]: the aggregated frame as (employee_name, hours) rows
    and the warnings shown.  [groupby(...).sum()] gives one row per name;
    the final [sort_values] only permutes the rows, and every consumer
    selects rows by name or sums over all of them, so the rows are kept in
    order of first appearance. *)
Definition load_time_logs (csv_paths : list csv_source)
  : list (pystr * Q) * list pystr :=
  let combined := concat (source_rows <$> csv_paths) in
  let aggregated :=
    (λ name, (name, hours_of combined name)) <$> unique (fst <$> combined) in
  (aggregated, concat (source_warnings <$> csv_paths)).

(** ** Task ingestor *)

(** An element of a user relation field of an Airtable record: a JSON
    object with optional "name" and "email" members, or another value,
    given by its [str()]. *)
Inductive user_entry :=
| UserDict (name email : option pystr)
| UserOther (text : pystr).

(** The "fields" object of a record.  An absent relation is the empty
    list, an absent member is [None]. *)
Record raw_fields := {
  f_task_id : option pystr;
  f_title : option pystr;
  f_task_status : option pystr;
  f_expert_user : list user_entry;
  f_expert_reviewer_user : list user_entry;
  f_reviews_reviewer_users : list user_entry;
  f_time_claimed : option pystr;
  f_time_in_progress : option pystr;
  f_time_ready_for_review : option pystr;
  f_time_first_ready_for_review : option pystr;
  f_time_merged : option pystr;
  f_reviews_count : option Z;
  f_reviews_approved_count : option Z;
  f_reviews_sent_back_count : option Z
}.

Record raw_record := {
  r_id : option pystr;
  r_fields : raw_fields
}.

(** A row of the task frame.  The name columns are optional because
    [calculate_cycle_times] and the metrics drop missing names
    ([dropna()]). *)
Record task := {
  record_id : option pystr;
  task_id : option pystr;
  title : pystr;
  task_status : pystr;
  expert_name : option pystr;
  expert_email : pystr;
  reviewer_name : option pystr;
  reviewer_emails : gset pystr;
  time_claimed : option Z;
  time_in_progress : option Z;
  time_ready_for_review : option Z;
  time_first_ready_for_review : option Z;
  time_merged : option Z;
  reviews_count : Z;
  unique_reviewers : nat;
  reviews_approved_count : Z;
  reviews_sent_back_count : Z
}.

(** One answer of the remote API to a page request. *)
Inductive response :=
| RequestException (msg : pystr)
| PageJson (records : list raw_record) (offset : option pystr).

(** [not offset] for the value of [data.get("offset")]. *)
Definition no_offset (offset : option pystr) : bool :=
  match offset with
  | None => true
  | Some s => falsy s
  end.

(** The [while True] loop of [fetch_airtable_tasks], run against the
    answers the API gives to the successive requests.  The state is
    [all_records] and the messages passed to [st.error].  [None]: the loop
    issues a request for which no answer is given. *)
Fixpoint fetch_loop (answers : list response) (all_records : list raw_record)
  (errors : list pystr) : option (list raw_record * list pystr) :=
  match answers with
  | [] => None
  | RequestException msg :: _ => Some (all_records, errors ++ [msg])
  | PageJson records offset :: answers' =>
      let all_records := all_records ++ records in
      if no_offset offset then Some (all_records, errors)
      else fetch_loop answers' all_records errors
  end.

(** Name and email taken from the first element of the author relation. *)
Definition expert_of (expert_user : list user_entry) : pystr * pystr :=
  match expert_user with
  | [] => ([], [])
  | UserDict name email :: _ =>
      (normalize_expert_name (default [] name), lower (default [] email))
  | UserOther text :: _ => (normalize_expert_name text, [])
  end.

Definition reviewer_of (reviewer_user : list user_entry) : pystr :=
  match reviewer_user with
  | [] => []
  | UserDict name _ :: _ => normalize_expert_name (default [] name)
  | UserOther text :: _ => normalize_expert_name text
  end.

(** The body of the [for reviewer in reviewer_users] loop. *)
Definition add_reviewer_email (expert_email : pystr) (acc : gset pystr)
  (reviewer : user_entry) : gset pystr :=
  match reviewer with
  | UserDict _ email =>
      let email := lower (default [] email) in
      if negb (falsy email) && bool_decide (email ≠ expert_email)
      then acc ∪ {[ email ]}
      else acc
  | UserOther _ => acc
  end.

(** The loop, from the empty set. *)
Definition unique_reviewer_emails (reviewer_users : list user_entry)
  (expert_email : pystr) : gset pystr :=
  foldl (add_reviewer_email expert_email) ∅ reviewer_users.

Section Ingest.

(** [pd.to_datetime(_, errors='coerce', utc=True)] on one cell: the
    instant in nanoseconds, [None] for an absent or unparseable value.  The
    parser belongs to pandas and is a parameter here; it is taken to act on
    each cell of a column on its own. *)
Variable to_datetime : option pystr → option Z.

(** One iteration of the [for record in all_records] loop, followed by the
    conversion of the date columns. *)
Definition parse_record (record : raw_record) : task :=
  let fields := r_fields record in
  let '(name, email) := expert_of (f_expert_user fields) in
  let emails := unique_reviewer_emails (f_reviews_reviewer_users fields) email in
  {| record_id := r_id record;
     task_id := f_task_id fields;
     title := default [] (f_title fields);
     task_status := default [] (f_task_status fields);
     expert_name := Some name;
     expert_email := email;
     reviewer_name := Some (reviewer_of (f_expert_reviewer_user fields));
     reviewer_emails := emails;
     time_claimed := to_datetime (f_time_claimed fields);
     time_in_progress := to_datetime (f_time_in_progress fields);
     time_ready_for_review := to_datetime (f_time_ready_for_review fields);
     time_first_ready_for_review :=
       to_datetime (f_time_first_ready_for_review fields);
     time_merged := to_datetime (f_time_merged fields);
     reviews_count := default 0%Z (f_reviews_count fields);
     unique_reviewers := size emails;
     reviews_approved_count := default 0%Z (f_reviews_approved_count fields);
     reviews_sent_back_count := default 0%Z (f_reviews_sent_back_count fields)
  |}.

(** What a call of [fetch_airtable_tasks] gives: the frame, the raw
    records, and the messages shown with [st.error]. *)
Record fetched := {
  fetched_df : list task;
  fetched_raw : list raw_record;
  fetched_errors : list pystr
}.

Definition fetch_airtable_tasks (api_key base_id table_id : pystr)
  (answers : list response) : option fetched :=
  if falsy api_key || falsy base_id then
    Some {| fetched_df := []; fetched_raw := []; fetched_errors := [] |}
  else
    '(all_records, errors) ← fetch_loop answers [] [];
    match all_records with
    | [] =>
        Some {| fetched_df := []; fetched_raw := []; fetched_errors := errors |}
    | _ =>
        Some {| fetched_df := parse_record <$> all_records;
                fetched_raw := all_records;
                fetched_errors := errors |}
    end.

End Ingest.

(** ** Cycle-time calculator *)

(** A row of the frame [calculate_cycle_times] returns: the input row and
    the four columns added. *)
Record cycle_row := {
  row_task : task;
  hours_claimed_to_review : option Q;
  hours_review_to_merged : option Q;
  hours_total_cycle : option Q;
  is_first_task : bool
}.

(** [(later - earlier).dt.total_seconds() / 3600] on one row. *)
Definition hours_between (earlier later : option Z) : option Q :=
  match later, earlier with
  | Some b, Some a => Some (inject_Z (b - a) / inject_Z (10 ^ 9) / 3600)%Q
  | _, _ => None
  end.

Definition Qltb (x y : Q) : bool := negb (Qle_bool y x).

(** [col[mask(col)] = None] for a comparison mask; a comparison with a
    missing value is false. *)
Definition mask_to_none (mask : Q → bool) (col : list (option Q))
  : list (option Q) :=
  (λ cell, match cell with
           | Some v => if mask v then None else Some v
           | None => None
           end) <$> col.

(** The two assignments of the clean-up loop, for one column. *)
Definition clean_column (col : list (option Q)) : list (option Q) :=
  let col := mask_to_none (λ v, Qltb v 0) col in
  mask_to_none (λ v, Qltb 720 v) col.

(** [df[df['expert_name'] == expert]], each row with its index label. *)
Definition expert_tasks (df : list task) (expert : pystr) : list (nat * task) :=
  filter (λ it, expert_name it.2 = Some expert) (imap pair df).

(** [Series.idxmin()]: the label of the first occurrence of the least
    value, missing values skipped.  The scan keeps the label and the value
    of the least cell met so far. *)
Definition idxmin_step (best : option (nat * Z)) (it : nat * option Z)
  : option (nat * Z) :=
  match it.2, best with
  | None, _ => best
  | Some t, None => Some (it.1, t)
  | Some t, Some (_, least) => if (t <? least)%Z then Some (it.1, t) else best
  end.

Definition idxmin (col : list (nat * option Z)) : option nat :=
  fst <$> foldl idxmin_step None col.

(** [expert_tasks['time_claimed']], each cell with its index label. *)
Definition claimed_column (df : list task) (expert : pystr)
  : list (nat * option Z) :=
  (λ it, (it.1, time_claimed it.2)) <$> expert_tasks df expert.

(** One iteration of the [for expert in ...] loop on the [is_first_task]
    column. *)
Definition mark_first (df : list task) (flags : list bool) (expert : pystr)
  : list bool :=
  let claimed := claimed_column df expert in
  if bool_decide (claimed ≠ []) && existsb (λ it, bool_decide (is_Some it.2)) claimed
  then
    match idxmin claimed with
    | Some first_task_idx => <[first_task_idx := true]> flags
    | None => flags
    end
  else flags.

Definition first_task_flags (df : list task) : list bool :=
  foldl (mark_first df) (replicate (length df) false)
        (unique (omap expert_name df)).

Definition calculate_cycle_times (df : list task) : list cycle_row :=
  let work :=
    clean_column ((λ t, hours_between (time_claimed t) (time_ready_for_review t)) <$> df) in
  let review :=
    clean_column ((λ t, hours_between (time_ready_for_review t) (time_merged t)) <$> df) in
  let total :=
    clean_column ((λ t, hours_between (time_claimed t) (time_merged t)) <$> df) in
  let flags := first_task_flags df in
  imap (λ i t,
          {| row_task := t;
             hours_claimed_to_review := default None (work !! i);
             hours_review_to_merged := default None (review !! i);
             hours_total_cycle := default None (total !! i);
             is_first_task := default false (flags !! i) |}) df.

(** ** AHT aggregation *)

Definition written_statuses : list pystr :=
  [ py "Ready for Review"; py "Revising"; py "Approved"; py "Merged" ].

(** [hours / n if n > 0 else None] *)
Definition ratio (hours : Q) (n : nat) : option Q :=
  if bool_decide (0 < n) then Some (hours / inject_Z (Z.of_nat n))%Q else None.

(** [time_logs[~time_logs['employee_name'].isin(EXCLUDED_FROM_AHT)]['hours'].sum()],
    and 0 for an empty frame. *)
Definition total_hours_for_aht (time_logs : list (pystr * Q)) : Q :=
  match time_logs with
  | [] => 0%Q
  | _ => Qsum (snd <$> filter (λ r, r.1 ∉ EXCLUDED_FROM_AHT) time_logs)
  end.

Definition merged_tasks (tasks : list cycle_row) : nat :=
  length (filter (λ r, task_status (row_task r) = py "Merged") tasks).

Definition written_tasks (tasks : list cycle_row) : nat :=
  length (filter (λ r, task_status (row_task r) ∈ written_statuses) tasks).

(** The [all_reviewer_emails] set after the loop over the column. *)
Definition all_reviewer_emails (tasks : list cycle_row) : gset pystr :=
  foldl (λ acc r, acc ∪ reviewer_emails (row_task r)) ∅ tasks.

Definition total_unique_reviews (tasks : list cycle_row) : nat :=
  size (all_reviewer_emails tasks).

Definition writer_aht_overall (time_logs : list (pystr * Q))
  (tasks : list cycle_row) : option Q :=
  ratio (total_hours_for_aht time_logs) (written_tasks tasks).

Definition reviewer_aht_overall (time_logs : list (pystr * Q))
  (tasks : list cycle_row) : option Q :=
  ratio (total_hours_for_aht time_logs) (total_unique_reviews tasks).

Definition overall_aht (time_logs : list (pystr * Q))
  (tasks : list cycle_row) : option Q :=
  ratio (total_hours_for_aht time_logs) (merged_tasks tasks).

(** The values computed for one expert in the loop of the performance tab,
    before the rounding applied for display. *)
Record expert_metric := {
  m_expert : pystr;
  m_hours_logged : Q;
  m_tasks_written : nat;
  m_tasks_merged : nat;
  m_reviews_done : nat;
  m_writer_aht : option Q;
  m_reviewer_aht : option Q;
  m_overall_aht : option Q
}.

Definition all_experts (time_logs : list (pystr * Q)) (tasks : list cycle_row)
  : gset pystr :=
  list_to_set (fst <$> time_logs)
  ∪ list_to_set (omap (λ r, expert_name (row_task r)) tasks)
  ∪ list_to_set (omap (λ r, reviewer_name (row_task r)) tasks).

(** The body of the loop for one (non-empty) expert name. *)
Definition metric_of (time_logs : list (pystr * Q)) (tasks : list cycle_row)
  (expert : pystr) : expert_metric :=
  let hours_logged := hours_of time_logs expert in
  match tasks with
  | [] =>
      {| m_expert := expert; m_hours_logged := hours_logged;
         m_tasks_written := 0; m_tasks_merged := 0; m_reviews_done := 0;
         m_writer_aht := None; m_reviewer_aht := None; m_overall_aht := None |}
  | _ =>
      let own := filter (λ r, expert_name (row_task r) = Some expert) tasks in
      let tasks_written := written_tasks own in
      let tasks_merged := merged_tasks own in
      let reviewed := filter (λ r, reviewer_name (row_task r) = Some expert) tasks in
      let reviews_done := merged_tasks reviewed in
      {| m_expert := expert; m_hours_logged := hours_logged;
         m_tasks_written := tasks_written; m_tasks_merged := tasks_merged;
         m_reviews_done := reviews_done;
         m_writer_aht := ratio hours_logged tasks_written;
         m_reviewer_aht := ratio hours_logged reviews_done;
         m_overall_aht := ratio hours_logged tasks_merged |}
  end.

(** [expert_metrics] after the loop; a set is iterated in an order of its
    own, taken here to be that of [elements]. *)
Definition expert_metrics (time_logs : list (pystr * Q)) (tasks : list cycle_row)
  : list expert_metric :=
  metric_of time_logs tasks <$>
    filter (λ expert, falsy expert = false) (elements (all_experts time_logs tasks)).

(** ** Cycle-time tab *)

(** [filtered_tasks[filtered_tasks['task_status'] == 'Merged']] *)
Definition cycle_df (filtered_tasks : list cycle_row) : list cycle_row :=
  filter (λ r, task_status (row_task r) = py "Merged") filtered_tasks.

(** [cycle_df[cycle_df['is_first_task'] == False]] *)
Definition cycle_df_no_first (filtered_tasks : list cycle_row) : list cycle_row :=
  filter (λ r, is_first_task r = false) (cycle_df filtered_tasks).

(** [cycle_df['is_first_task'].sum()]: a sum of booleans. *)
Definition first_task_count (filtered_tasks : list cycle_row) : nat :=
  sum_list_with (λ r, if is_first_task r then 1 else 0) (cycle_df filtered_tasks).

(** [Series.mean()]: missing cells are skipped, and the mean of no cell is
    missing. *)
Definition mean (col : list (option Q)) : option Q :=
  let present := omap id col in
  match present with
  | [] => None
  | _ => Some (Qsum present / inject_Z (Z.of_nat (length present)))%Q
  end.

Definition avg_claim_to_review (frame : list cycle_row) : option Q :=
  mean (hours_claimed_to_review <$> frame).

Definition avg_review_to_merged (frame : list cycle_row) : option Q :=
  mean (hours_review_to_merged <$> frame).

Definition avg_total (frame : list cycle_row) : option Q :=
  mean (hours_total_cycle <$> frame).

(** ** Mock data of [scripts/metrics_dashboard.py] *)

(** An entry of the 'time_series' list. *)
Record mock_point := {
  mp_date : pystr;
  mp_hours_logged : Z;
  mp_reviews_done : Z;
  mp_writing_units_done : Z;
  mp_pass_rate : Z;
  mp_tasks_completed : Z;
  mp_aht : Z
}.

(** The 'time_series' entry of [generate_mock_data]; [dates] are the days
    of [pd.date_range(start=date_from, end=date_to, freq='D')], each already
    formatted by [strftime('%Y-%m-%d')]. *)
Definition mock_time_series (dates : list pystr) : list mock_point :=
  imap (λ i date,
          let i := Z.of_nat i in
          {| mp_date := date;
             mp_hours_logged := 5 + i mod 8;
             mp_reviews_done := 10 + i mod 15;
             mp_writing_units_done := 2 + i mod 5;
             mp_pass_rate := 88 + i mod 10;
             mp_tasks_completed := 3 + i mod 6;
             mp_aht := 10 + i mod 8 |}%Z) dates.

(** ** Vocabulary of the statements *)

(** The two fields [parse_time_to_hours] reads from its argument: the text
    before the first colon, and the text between the first and the second
    colon when there is a colon. *)
Definition hours_field (s : pystr) : pystr := (split_on 58 s).1.

Definition minutes_field (s : pystr) : option pystr := head (split_on 58 s).2.

Definition is_int (s : pystr) : bool :=
  match int s with
  | Ok _ => true
  | Raise _ => false
  end.

(** A duration string one of whose fields is not an integer literal. *)
Definition malformed (s : pystr) : Prop :=
  is_int (hours_field s) = false
  ∨ ∃ p, minutes_field s = Some p ∧ is_int p = false.

(** The time cells of a sheet carry no minus sign. *)
Definition unsigned_source (src : csv_source) : Prop :=
  match src with
  | TimeSheet rows => Forall (λ r, ∀ s, r.2 = Some s → 45%N ∉ s) rows
  | _ => True
  end.

(** What the sanity filter may leave in a duration cell: nothing for a
    missing, negative or above-720-hours duration, the duration itself
    otherwise. *)
Definition filtered_duration (raw out : option Q) : Prop :=
  match raw with
  | None => out = None
  | Some v =>
      ((v < 0)%Q → out = None)
      ∧ ((720 < v)%Q → out = None)
      ∧ ((0 <= v)%Q → (v <= 720)%Q → out = Some v)
  end.

(** One hour, in nanoseconds. *)
Definition hour_ns : Z := 3600 * 10 ^ 9.

(** Row [j] of the frame belongs to author [a] and was claimed at [c]. *)
Definition claimed_by (df : list task) (a : pystr) (j : nat) (c : Z) : Prop :=
  ∃ t, df !! j = Some t ∧ expert_name t = Some a ∧ time_claimed t = Some c.

(** Row [i] is the first of the rows of author [a] that carry the least
    claimed timestamp of that author. *)
Definition earliest_claim (df : list task) (a : pystr) (i : nat) : Prop :=
  ∃ c0, claimed_by df a i c0
    ∧ ∀ j c, claimed_by df a j c → (c0 ≤ c)%Z ∧ (j < i → (c0 < c)%Z).

(** The state of the [idxmin] scan over the rows of [a] in a frame. *)
Definition best_claim (df : list task) (a : pystr) : option (nat * Z) :=
  foldl idxmin_step None (claimed_column df a).

(** What the scan holds after a frame: nothing when no row of [a] has a
    claimed timestamp, otherwise the earliest claim of [a]. *)
Definition best_inv (df : list task) (a : pystr) (best : option (nat * Z))
  : Prop :=
  match best with
  | None => ∀ j c, ¬ claimed_by df a j c
  | Some (i, c0) =>
      claimed_by df a i c0
      ∧ ∀ j c, claimed_by df a j c → (c0 ≤ c)%Z ∧ (j < i → (c0 < c)%Z)
  end.

(** Row [j] of the result of [calculate_cycle_times] is flagged as a first
    task. *)
Definition flagged (df : list task) (j : nat) : Prop :=
  ∃ r, calculate_cycle_times df !! j = Some r ∧ is_first_task r = true.

(** The email a review action contributes to the count of a task whose
    author has email [author]: the lower-cased email of a reviewer object,
    unless it is empty or the author's. *)
Definition reviewer_email_of (author : pystr) (reviewer : user_entry)
  (e : pystr) : Prop :=
  ∃ name email, reviewer = UserDict name email
    ∧ e = lower (default [] email) ∧ e ≠ [] ∧ e ≠ author.

(** A page answer together with its cursor for the next page. *)
Definition page_answers (pages : list (list raw_record * pystr))
  : list response :=
  (λ p, PageJson p.1 (Some p.2)) <$> pages.

(** Hours over a count, no value for a count of zero. *)
Definition per_unit (hours : Q) (n : nat) : option Q :=
  match n with
  | 0 => None
  | S _ => Some (hours / inject_Z (Z.of_nat n))%Q
  end.

(** The logged hours of the workers outside the excluded list, summed. *)
Definition hours_outside_excluded (time_logs : list (pystr * Q)) : Q :=
  Qsum (snd <$> filter (λ r, r.1 ≠ py "Mahir Bansal") time_logs).

(** The number of tasks whose status is one of [statuses]. *)
Definition count_status (statuses : list pystr) (tasks : list cycle_row) : nat :=
  length (filter (λ r, task_status (row_task r) ∈ statuses) tasks).

(** The number a string of decimal digits denotes. *)
Definition decimal_value (ds : pystr) : Z :=
  foldl (λ acc c, 10 * acc + Z.of_N (c - 48))%Z 0%Z ds.

(** An ASCII digit. *)
Definition is_digit (c : N) : bool := ((48 <=? c) && (c <=? 57))%N.

(** A non-empty string of ASCII digits. *)
Definition all_digits (ds : pystr) : Prop :=
  ds ≠ [] ∧ Forall (λ c, is_digit c = true) ds.

(** A name the normalizer leaves as it is. *)
Definition canonical_name (name : pystr) : Prop :=
  normalize_expert_name name = name.

(** The rows of all the sheets handed to [load_time_logs], normalized and
    parsed, before they are grouped. *)
Definition pooled_rows (csv_paths : list csv_source) : list (pystr * Q) :=
  concat (source_rows <$> csv_paths).

(** An answer after which the loop of [fetch_airtable_tasks] makes no
    further request: a failure, or a page without (or with an empty)
    offset. *)
Definition ends_pagination (answer : response) : bool :=
  match answer with
  | RequestException _ => true
  | PageJson _ offset => no_offset offset
  end.

(** The distinct authors of the rows that have a claimed timestamp. *)
Definition claimed_authors (df : list task) : list pystr :=
  unique (omap (λ t, match time_claimed t with
                     | Some _ => expert_name t
                     | None => None
                     end) df).

(** The number of rows flagged as first task. *)
Definition count_first_tasks (rows : list cycle_row) : nat :=
  length (filter (λ r, is_first_task r = true) rows).

(** A duration the sanity filter lets through. *)
Definition plausible (v : Q) : Prop := (0 <= v)%Q ∧ (v <= 720)%Q.

(** The metric values of a mock entry, without its date. *)
Definition mock_values (p : mock_point) : Z * Z * Z * Z * Z * Z :=
  (mp_hours_logged p, mp_reviews_done p, mp_writing_units_done p,
   mp_pass_rate p, mp_tasks_completed p, mp_aht p).

(** The ranges of whitespace code points, as [is_space] has them. *)
Definition space_ranges : list (N * N) :=
  [ (9, 13); (28, 32); (133, 133); (160, 160); (5760, 5760); (8192, 8202);
    (8232, 8233); (8239, 8239); (8287, 8287); (12288, 12288) ]%N.

(** No range of the first table meets a range of the second. *)
Definition ranges_disjoint (t1 t2 : list (N * N)) : bool :=
  forallb (λ r1, forallb (λ r2, (r1.2 <? r2.1) || (r2.2 <? r1.1))%N t2) t1.

(** The code points a run of the lower-case table covers, and those it
    maps them into. *)
Definition run_source (r : N * N * N * N) : N * N :=
  let '(lo, hi, _, _) := r in (lo, hi).

Definition run_target (r : N * N * N * N) : N * N :=
  let '(lo, hi, _, target) := r in (target, target + (hi - lo))%N.

(** The text one code point becomes, given what is before and after it. *)
Definition lower_at (before_rev : pystr) (c : N) (after : pystr) : pystr :=
  if (c =? 931)%N
  then [if final_sigma before_rev after then 962%N else 963%N]
  else to_lower_full c.

(** ** Sample data *)

(** A task row with an author and a claim time and nothing else. *)
Definition task_of (name : option pystr) (claimed : option Z) : task :=
  {| record_id := None; task_id := None; title := []; task_status := [];
     expert_name := name; expert_email := []; reviewer_name := Some [];
     reviewer_emails := ∅;
     time_claimed := claimed; time_in_progress := None;
     time_ready_for_review := None; time_first_ready_for_review := None;
     time_merged := None;
     reviews_count := 0; unique_reviewers := 0;
     reviews_approved_count := 0; reviews_sent_back_count := 0 |}.

(** A merged task of worker W with its three timestamps and nothing
    else. *)
Definition timed_task (claimed ready merged : option Z) : task :=
  {| record_id := None; task_id := None; title := []; task_status := py "Merged";
     expert_name := Some (py "W"); expert_email := []; reviewer_name := Some [];
     reviewer_emails := ∅;
     time_claimed := claimed; time_in_progress := None;
     time_ready_for_review := ready; time_first_ready_for_review := None;
     time_merged := merged;
     reviews_count := 0; unique_reviewers := 0;
     reviews_approved_count := 0; reviews_sent_back_count := 0 |}.

(** An API record with an author relation, review actions and a claim time
    and nothing else. *)
Definition record_of (expert_user reviewer_users : list user_entry)
  (claimed : option pystr) : raw_record :=
  {| r_id := None;
     r_fields :=
       {| f_task_id := None; f_title := None; f_task_status := None;
          f_expert_user := expert_user;
          f_expert_reviewer_user := [];
          f_reviews_reviewer_users := reviewer_users;
          f_time_claimed := claimed; f_time_in_progress := None;
          f_time_ready_for_review := None;
          f_time_first_ready_for_review := None; f_time_merged := None;
          f_reviews_count := None; f_reviews_approved_count := None;
          f_reviews_sent_back_count := None |} |}.

(** A timestamp parser for sample data: the cell holds the nanoseconds in
    decimal. *)
Definition decimal_datetime (cell : option pystr) : option Z :=
  match cell with
  | Some s => match int s with Ok z => Some z | Raise _ => None end
  | None => None
  end.

(** * Properties *)

(** ** Strings *)

Section StringLemmas.

Lemma lstrip_idemp s : lstrip (lstrip s) = lstrip s.
Proof.
  induction s as [| c s IH]; [reflexivity |].
  cbn [lstrip]. destruct (is_space c) eqn:Hc; [exact IH |].
  cbn [lstrip]. rewrite Hc. reflexivity.
Qed.

Lemma lstrip_snoc s c :
  is_space c = false → lstrip (s ++ [c]) = lstrip s ++ [c].
Proof.
  intros Hc. induction s as [| d s IH]; cbn [lstrip app].
  - rewrite Hc. reflexivity.
  - destruct (is_space d); [exact IH | reflexivity].
Qed.

(** Stripping on the right leaves a string alone that is already stripped
    on the left. *)
Lemma lstrip_rstrip s : lstrip s = s → lstrip (rstrip s) = rstrip s.
Proof.
  destruct s as [| c s]; [reflexivity |].
  cbn [lstrip]. destruct (is_space c) eqn:Hc.
  - intros Heq. exfalso.
    assert (Hlen : length (lstrip s) ≤ length s).
    { clear. induction s as [| d s IH]; cbn [lstrip]; [lia |].
      destruct (is_space d); cbn [length]; lia. }
    rewrite Heq in Hlen. cbn [length] in Hlen. lia.
  - intros _. unfold rstrip. cbn [rev].
    rewrite lstrip_snoc by exact Hc.
    rewrite rev_app_distr. cbn [rev app lstrip]. rewrite Hc. reflexivity.
Qed.

Lemma strip_idemp s : strip (strip s) = strip s.
Proof.
  unfold strip.
  rewrite (lstrip_rstrip (lstrip s)) by apply lstrip_idemp.
  unfold rstrip. rewrite rev_involutive, lstrip_idemp. reflexivity.
Qed.

Lemma elem_of_rev {A} (x : A) l : x ∈ rev l ↔ x ∈ l.
Proof. rewrite !list_elem_of_In. symmetry. apply in_rev. Qed.

(** *** Lower-casing and whitespace *)

Lemma in_ranges_spec table c :
  in_ranges table c = true ↔ ∃ r, r ∈ table ∧ (r.1 ≤ c ≤ r.2)%N.
Proof.
  unfold in_ranges. rewrite existsb_exists. split.
  - intros (r & Hin & Hr). exists r. apply list_elem_of_In in Hin.
    apply andb_true_iff in Hr as [H1 H2]. apply N.leb_le in H1, H2. done.
  - intros (r & Hin & H1 & H2). exists r. split; [by apply list_elem_of_In |].
    apply andb_true_iff. split; by apply N.leb_le.
Qed.

Lemma ranges_disjoint_spec t1 t2 c :
  ranges_disjoint t1 t2 = true →
  in_ranges t1 c = true → in_ranges t2 c = false.
Proof.
  intros Hdis Hin1. apply not_true_is_false. intros Hin2.
  apply in_ranges_spec in Hin1 as (r1 & Hr1 & Hc1).
  apply in_ranges_spec in Hin2 as (r2 & Hr2 & Hc2).
  unfold ranges_disjoint in Hdis. rewrite forallb_forall in Hdis.
  specialize (Hdis r1 (proj1 (list_elem_of_In _ _) Hr1)).
  rewrite forallb_forall in Hdis.
  specialize (Hdis r2 (proj1 (list_elem_of_In _ _) Hr2)).
  apply orb_true_iff in Hdis as [H | H]; apply N.ltb_lt in H; lia.
Qed.

Lemma is_space_ranges c : is_space c = in_ranges space_ranges c.
Proof.
  unfold is_space, in_ranges, space_ranges. cbn [existsb fst snd].
  repeat match goal with
         | |- context [(?a <=? ?b)%N] => destruct (N.leb_spec a b); try lia
         | |- context [(?a =? ?b)%N] => destruct (N.eqb_spec a b); try lia
         end.
  all: reflexivity.
Qed.

Lemma in_ranges_elem table r c :
  r ∈ table → in_ranges [r] c = true → in_ranges table c = true.
Proof.
  intros Hr Hc. apply in_ranges_spec in Hc as (r' & Hr' & Hc).
  apply list_elem_of_singleton in Hr' as ->.
  apply in_ranges_spec. eauto.
Qed.

(** The three shapes of the lower case of a code point. *)
Lemma to_lower_full_cases c :
  (to_lower_full c = [105; 775]%N ∧ c = 304%N)
  ∨ to_lower_full c = [c]
  ∨ ∃ r d, r ∈ lower_runs ∧ to_lower_full c = [d]
      ∧ in_ranges [run_source r] c = true ∧ in_ranges [run_target r] d = true.
Proof.
  unfold to_lower_full. destruct (N.eqb_spec c 304) as [-> | _]; [by left |].
  right.
  destruct (find _ lower_runs) as [[[[lo hi] stride] target] |] eqn:Hfind;
    [| by left].
  right. apply find_some in Hfind as [Hin Hrun].
  destruct (N.leb_spec lo c) as [Hlo |]; [| discriminate].
  destruct (N.leb_spec c hi) as [Hhi |]; [| discriminate].
  exists (lo, hi, stride, target), (target + (c - lo))%N.
  split; [by apply list_elem_of_In |]. split; [reflexivity |].
  split; apply in_ranges_spec; eexists; (split; [left |]); cbn; lia.
Qed.

Lemma lower_runs_sources_no_space :
  ranges_disjoint (run_source <$> lower_runs) space_ranges = true.
Proof. vm_compute. reflexivity. Qed.

Lemma lower_runs_targets_no_space :
  ranges_disjoint (run_target <$> lower_runs) space_ranges = true.
Proof. vm_compute. reflexivity. Qed.

Lemma space_not_ignorable :
  ranges_disjoint space_ranges case_ignorable_ranges = true.
Proof. vm_compute. reflexivity. Qed.

Lemma space_not_cased : ranges_disjoint space_ranges cased_ranges = true.
Proof. vm_compute. reflexivity. Qed.

(** Whitespace is its own lower case, is no capital sigma and is neither
    cased nor case-ignorable. *)
Lemma lower_of_space c :
  is_space c = true →
  (c =? 931)%N = false ∧ to_lower_full c = [c]
  ∧ case_ignorable c = false ∧ cased c = false.
Proof.
  intros Hsp. pose proof Hsp as Hr. rewrite is_space_ranges in Hr.
  split; [| split; [| split]].
  - apply N.eqb_neq. intros ->. vm_compute in Hsp. discriminate.
  - destruct (to_lower_full_cases c)
      as [[_ ->] | [H | (r & d & Hin & _ & Hsrc & _)]].
    + vm_compute in Hsp. discriminate.
    + exact H.
    + exfalso.
      assert (in_ranges (run_source <$> lower_runs) c = true) as Hc.
      { eapply in_ranges_elem; [| exact Hsrc]. by apply list_elem_of_fmap_2. }
      apply (ranges_disjoint_spec _ _ _ lower_runs_sources_no_space) in Hc.
      congruence.
  - exact (ranges_disjoint_spec _ _ _ space_not_ignorable Hr).
  - exact (ranges_disjoint_spec _ _ _ space_not_cased Hr).
Qed.

(** The lower case of a code point that is no whitespace holds none. *)
Lemma lower_of_nonspace c :
  is_space c = false →
  to_lower_full c ≠ [] ∧ Forall (λ d, is_space d = false) (to_lower_full c).
Proof.
  intros Hsp.
  destruct (to_lower_full_cases c)
    as [[-> _] | [-> | (r & d & Hin & -> & _ & Htgt)]].
  - split; [done |]. repeat constructor.
  - split; [done |]. by repeat constructor.
  - split; [done |]. repeat constructor.
    assert (in_ranges (run_target <$> lower_runs) d = true) as Hd.
    { eapply in_ranges_elem; [| exact Htgt]. by apply list_elem_of_fmap_2. }
    apply (ranges_disjoint_spec _ _ _ lower_runs_targets_no_space) in Hd.
    by rewrite is_space_ranges.
Qed.

Lemma lower_from_cons b c rest :
  lower_from b (c :: rest) = lower_at b c rest ++ lower_from (c :: b) rest.
Proof. reflexivity. Qed.

Lemma lower_at_space b c rest : is_space c = true → lower_at b c rest = [c].
Proof.
  intros Hsp. destruct (lower_of_space c Hsp) as (Hsig & Hlow & _).
  unfold lower_at. by rewrite Hsig.
Qed.

Lemma lower_at_nonspace b c rest :
  is_space c = false →
  ∃ d ds, lower_at b c rest = d :: ds
    ∧ Forall (λ d, is_space d = false) (d :: ds).
Proof.
  intros Hsp. unfold lower_at. destruct (c =? 931)%N.
  - destruct (final_sigma b rest); eexists _, _; (split; [reflexivity |]);
      by repeat constructor.
  - destruct (lower_of_nonspace c Hsp) as [Hne Hall].
    destruct (to_lower_full c) as [| d ds]; [done |]. eauto.
Qed.

Lemma skip_ignorable_spaces sps :
  Forall (λ c, is_space c = true) sps → skip_ignorable sps = sps.
Proof.
  intros Hsps. destruct Hsps as [| c sps Hc _]; [reflexivity |].
  destruct (lower_of_space c Hc) as (_ & _ & Hign & _).
  cbn [skip_ignorable]. by rewrite Hign.
Qed.

Lemma final_sigma_spaces_l b sps after :
  Forall (λ c, is_space c = true) sps →
  final_sigma (b ++ sps) after = final_sigma b after.
Proof.
  intros Hsps. unfold final_sigma.
  induction b as [| c b IH]; cbn [app skip_ignorable].
  - rewrite skip_ignorable_spaces by exact Hsps.
    destruct Hsps as [| c sps Hc _]; [reflexivity |].
    destruct (lower_of_space c Hc) as (_ & _ & _ & Hcased). by rewrite Hcased.
  - destruct (case_ignorable c); [exact IH | reflexivity].
Qed.

Lemma final_sigma_spaces_r b after sps :
  Forall (λ c, is_space c = true) sps →
  final_sigma b (after ++ sps) = final_sigma b after.
Proof.
  intros Hsps. unfold final_sigma.
  destruct (skip_ignorable b) as [| c _]; [reflexivity |]. f_equal.
  induction after as [| d after IH]; cbn [app skip_ignorable].
  - rewrite skip_ignorable_spaces by exact Hsps.
    destruct Hsps as [| d sps Hd _]; [reflexivity |].
    destruct (lower_of_space d Hd) as (_ & _ & _ & Hcased). by rewrite Hcased.
  - destruct (case_ignorable d); [exact IH | reflexivity].
Qed.

(** Whitespace before or after a text does not change its lower case, and
    is left as it is. *)
Lemma lower_from_spaces_l s : ∀ b sps,
  Forall (λ c, is_space c = true) sps →
  lower_from (b ++ sps) s = lower_from b s.
Proof.
  induction s as [| c s IH]; intros b sps Hsps; [reflexivity |].
  rewrite !lower_from_cons. change (c :: b ++ sps) with ((c :: b) ++ sps).
  rewrite (IH (c :: b) sps Hsps).
  unfold lower_at. by rewrite final_sigma_spaces_l.
Qed.

Lemma lower_from_only_spaces sps : ∀ b,
  Forall (λ c, is_space c = true) sps → lower_from b sps = sps.
Proof.
  induction sps as [| c sps IH]; intros b Hsps; [reflexivity |].
  apply Forall_cons in Hsps as [Hc Hsps].
  rewrite lower_from_cons, lower_at_space by exact Hc.
  cbn [app]. by rewrite IH.
Qed.

Lemma lower_from_spaces_r s : ∀ b sps,
  Forall (λ c, is_space c = true) sps →
  lower_from b (s ++ sps) = lower_from b s ++ sps.
Proof.
  induction s as [| c s IH]; intros b sps Hsps.
  { cbn [app]. by apply lower_from_only_spaces. }
  cbn [app]. rewrite !lower_from_cons, (IH _ _ Hsps), app_assoc.
  unfold lower_at. by rewrite final_sigma_spaces_r.
Qed.

Lemma lower_lstrip_from s : ∀ b,
  Forall (λ c, is_space c = true) b →
  lower_from [] (lstrip s) = lstrip (lower_from b s).
Proof.
  induction s as [| c s IH]; intros b Hb; [reflexivity |].
  rewrite lower_from_cons. cbn [lstrip]. destruct (is_space c) eqn:Hc.
  - rewrite lower_at_space by exact Hc. cbn [app lstrip]. rewrite Hc.
    apply IH. by constructor.
  - destruct (lower_at_nonspace b c s Hc) as (d & ds & Hat & Hall).
    apply Forall_cons in Hall as [Hd _].
    assert (lstrip (lower_at b c s ++ lower_from (c :: b) s)
            = lower_at b c s ++ lower_from (c :: b) s) as ->.
    { rewrite Hat. cbn [app lstrip]. by rewrite Hd. }
    rewrite <- lower_from_cons.
    symmetry. apply (lower_from_spaces_l (c :: s) [] b Hb).
Qed.

Lemma lower_lstrip s : lower (lstrip s) = lstrip (lower s).
Proof. apply (lower_lstrip_from s []). constructor. Qed.

Lemma lstrip_spaces_app sps s :
  Forall (λ c, is_space c = true) sps → lstrip (sps ++ s) = lstrip s.
Proof.
  induction 1 as [| c sps Hc _ IH]; [reflexivity |].
  cbn [app lstrip]. by rewrite Hc.
Qed.

(** A text is a core that is empty or ends in something other than
    whitespace, followed by whitespace. *)
Lemma trailing_spaces s :
  ∃ core sps, s = core ++ sps
    ∧ Forall (λ c, is_space c = true) sps
    ∧ (core = [] ∨ ∃ core' c, core = core' ++ [c] ∧ is_space c = false).
Proof.
  induction s as [| c s IH] using rev_ind.
  { exists [], []. split; [reflexivity |]. split; [constructor | by left]. }
  destruct (is_space c) eqn:Hc.
  - destruct IH as (core & sps & -> & Hsps & Hcore).
    exists core, (sps ++ [c]). split; [by rewrite app_assoc |].
    split; [| exact Hcore]. apply Forall_app. split; [exact Hsps |].
    by repeat constructor.
  - exists (s ++ [c]), []. split; [by rewrite app_nil_r |].
    split; [constructor |]. right. eauto.
Qed.

Lemma rstrip_core core sps :
  Forall (λ c, is_space c = true) sps →
  (core = [] ∨ ∃ core' c, core = core' ++ [c] ∧ is_space c = false) →
  rstrip (core ++ sps) = core.
Proof.
  intros Hsps Hcore. unfold rstrip. rewrite rev_app_distr.
  rewrite lstrip_spaces_app.
  2: { apply Forall_forall. intros c Hc.
       apply (proj1 (elem_of_rev _ _)) in Hc.
       exact (proj1 (Forall_forall _ _) Hsps _ Hc). }
  destruct Hcore as [-> | (core' & c & -> & Hc)]; [reflexivity |].
  rewrite rev_app_distr. cbn [rev app lstrip]. rewrite Hc.
  change (c :: rev core') with ([c] ++ rev core').
  rewrite rev_app_distr, rev_involutive. reflexivity.
Qed.

Lemma lower_from_ends s : ∀ b c,
  is_space c = false →
  ∃ out d, lower_from b (s ++ [c]) = out ++ [d] ∧ is_space d = false.
Proof.
  induction s as [| c0 s IH]; intros b c Hc.
  - cbn [app]. rewrite lower_from_cons. cbn [lower_from].
    rewrite app_nil_r.
    destruct (lower_at_nonspace b c [] Hc) as (d & ds & -> & Hall).
    destruct (exists_last (l := d :: ds)) as (out & e & Heq); [done |].
    exists out, e. split; [exact Heq |].
    apply (proj1 (Forall_forall _ _) Hall). rewrite Heq.
    apply elem_of_app. right. left.
  - cbn [app]. rewrite lower_from_cons.
    destruct (IH (c0 :: b) c Hc) as (out & d & -> & Hd).
    exists (lower_at b c0 (s ++ [c]) ++ out), d.
    split; [by rewrite app_assoc | exact Hd].
Qed.

Lemma lower_rstrip s : lower (rstrip s) = rstrip (lower s).
Proof.
  destruct (trailing_spaces s) as (core & sps & -> & Hsps & Hcore).
  rewrite (rstrip_core _ _ Hsps Hcore). unfold lower.
  rewrite (lower_from_spaces_r _ _ _ Hsps). symmetry.
  apply rstrip_core; [exact Hsps |].
  destruct Hcore as [-> | (core' & c & -> & Hc)]; [by left |].
  right. destruct (lower_from_ends core' [] c Hc) as (out & d & -> & Hd). eauto.
Qed.

Lemma lower_strip s : lower (strip s) = strip (lower s).
Proof. unfold strip. by rewrite lower_rstrip, lower_lstrip. Qed.

End StringLemmas.

(** ** Name normalizer *)

Section Normalizer.

Variable d : list (pystr * pystr).

(** Every canonical name of the table is left alone by the normalizer. *)
Hypothesis canonical_fixed :
  Forall (λ kv, normalize_with d kv.2 = kv.2) d.

Lemma dict_get_canonical k c :
  dict_get d k = Some c → normalize_with d c = c.
Proof.
  unfold dict_get. intros Hget.
  apply fmap_Some in Hget as ([i kv] & Hfind & ->).
  apply list_find_Some in Hfind as (Hi & _).
  apply list_elem_of_lookup_2 in Hi.
  exact (proj1 (Forall_forall _ _) canonical_fixed _ Hi).
Qed.

Lemma find_lower_canonical n c :
  find_lower d n = Some c → normalize_with d c = c.
Proof.
  unfold find_lower. intros Hget.
  apply fmap_Some in Hget as ([i kv] & Hfind & ->).
  apply list_find_Some in Hfind as (Hi & _).
  apply list_elem_of_lookup_2 in Hi.
  exact (proj1 (Forall_forall _ _) canonical_fixed _ Hi).
Qed.

(** A key found by exact match is also found by the case-insensitive
    scan. *)
Lemma find_lower_None_dict_get n k :
  find_lower d n = None → lower k = n → dict_get d k = None.
Proof.
  unfold find_lower, dict_get. intros Hnone Hk.
  apply fmap_None in Hnone. apply fmap_None.
  apply list_find_None. apply list_find_None in Hnone.
  eapply Forall_impl; [exact Hnone |].
  intros [a c] Hne Heq. cbn in *. subst a. contradiction.
Qed.

Lemma normalize_with_idempotent x :
  normalize_with d (normalize_with d x) = normalize_with d x.
Proof.
  unfold normalize_with at 2 3.
  destruct (falsy x) eqn:Hx.
  { unfold normalize_with. rewrite Hx. reflexivity. }
  destruct (dict_get d x) as [c |] eqn:Hget.
  { exact (dict_get_canonical _ _ Hget). }
  cbn zeta.
  destruct (find_lower d (strip (lower x))) as [c |] eqn:Hscan.
  { exact (find_lower_canonical _ _ Hscan). }
  unfold normalize_with.
  destruct (falsy (strip x)) eqn:Hy; [reflexivity |].
  rewrite (find_lower_None_dict_get (strip (lower x)) (strip x) Hscan)
    by apply lower_strip.
  cbn zeta. rewrite lower_strip, strip_idemp, Hscan.
  apply strip_idemp.
Qed.

End Normalizer.

Lemma EXPERT_ALIASES_canonical_fixed :
  Forall (λ kv, normalize_with EXPERT_ALIASES kv.2 = kv.2) EXPERT_ALIASES.
Proof.
  unfold EXPERT_ALIASES at 2.
  repeat (apply Forall_cons; split; [vm_compute; reflexivity |]).
  apply Forall_nil. exact I.
Qed.

(** C7: name normalization is idempotent for the configured alias table:
    normalizing an already normalized name, whether it came from an alias
    or from an arbitrary string, gives the same name again. *)
Theorem normalize_expert_name_idempotent (x : pystr) :
  normalize_expert_name (normalize_expert_name x) = normalize_expert_name x.
Proof.
  unfold normalize_expert_name.
  apply normalize_with_idempotent, EXPERT_ALIASES_canonical_fixed.
Qed.

(** ** Duration parsing *)

Lemma split_fields s : split 58 s = hours_field s :: (split_on 58 s).2.
Proof. unfold split, hours_field. destruct (split_on 58 s). reflexivity. Qed.

(** The parser in terms of the two fields it reads. *)
Lemma parse_time_to_hours_fields s :
  falsy s = false →
  parse_time_to_hours (Some s) =
    match int (hours_field s), minutes_field s with
    | Ok h, None => (inject_Z h + inject_Z 0 / 60)%Q
    | Ok h, Some p =>
        match int p with
        | Ok m => (inject_Z h + inject_Z m / 60)%Q
        | Raise _ => 0%Q
        end
    | Raise _, _ => 0%Q
    end.
Proof.
  intros Hs. unfold parse_time_to_hours, minutes_field. rewrite Hs, split_fields.
  destruct (split_on 58 s).2 as [| p rest]; cbn.
  - destruct (int (hours_field s)) as [h | []]; reflexivity.
  - destruct (int (hours_field s)) as [h | []]; cbn; try reflexivity.
    destruct (int p) as [m | []]; reflexivity.
Qed.

(** C8: "2:30" parses to 2.5, the empty string and "garbage" to 0.0, "10"
    to 10.0 (no colon: zero minutes); an empty or missing cell and every
    string with a field that is not an integer give 0.0, not an error. *)
Theorem parse_time_to_hours_examples :
  (parse_time_to_hours (Some (py "2:30")) == 5 # 2)%Q
  ∧ (parse_time_to_hours (Some (py "")) == 0)%Q
  ∧ (parse_time_to_hours (Some (py "garbage")) == 0)%Q
  ∧ (parse_time_to_hours (Some (py "10")) == 10)%Q
  ∧ parse_time_to_hours None = 0%Q
  ∧ ∀ s, malformed s → parse_time_to_hours (Some s) = 0%Q.
Proof.
  do 5 (split; [vm_compute; reflexivity |]).
  intros s Hbad. destruct (falsy s) eqn:Hs.
  { destruct s; [reflexivity | discriminate]. }
  rewrite parse_time_to_hours_fields by exact Hs.
  unfold malformed, is_int in Hbad.
  destruct Hbad as [Hh | (p & Hp & Hm)].
  - destruct (int (hours_field s)); [discriminate | reflexivity].
  - rewrite Hp. destruct (int (hours_field s)); [| reflexivity].
    destruct (int p); [discriminate | reflexivity].
Qed.

Lemma parse_time_to_hours_examples_witness :
  parse_time_to_hours (Some (py "1:x0")) = 0%Q.
Proof.
  apply (proj2 (proj2 (proj2 (proj2 (proj2 parse_time_to_hours_examples))))).
  right. exists (py "x0"). split; vm_compute; reflexivity.
Defined.

(** ** Sign of the parsed hours *)

Lemma decimal_digit_nonneg c d : decimal_digit c = Some d → (0 ≤ d)%Z.
Proof.
  unfold decimal_digit. intros Hd.
  apply fmap_Some in Hd as (zero & _ & ->). lia.
Qed.

Lemma digits_value_nonneg s : ∀ acc after z,
  (0 ≤ acc)%Z → digits_value acc after s = Some z → (0 ≤ z)%Z.
Proof.
  induction s as [| c s IH]; intros acc after z Hacc; cbn [digits_value].
  - destruct after; [| discriminate]. intros [= <-]. exact Hacc.
  - destruct (decimal_digit c) as [d |] eqn:Hd.
    + apply IH. apply decimal_digit_nonneg in Hd. lia.
    + destruct ((c =? 95)%N && after); [| discriminate]. apply IH. exact Hacc.
Qed.

Lemma lstrip_by_subseteq space s : lstrip_by space s ⊆ s.
Proof.
  induction s as [| c s IH]; [done |].
  cbn [lstrip_by]. destruct (space c); [| done].
  intros x Hx. apply list_elem_of_further, IH, Hx.
Qed.

Lemma lstrip_subseteq s : lstrip s ⊆ s.
Proof.
  induction s as [| c s IH]; [done |].
  cbn [lstrip]. destruct (is_space c); [| done].
  intros x Hx. apply list_elem_of_further, IH, Hx.
Qed.

Lemma elem_of_concat {A} (x : A) (ls : list (list A)) :
  x ∈ concat ls ↔ ∃ l, x ∈ l ∧ l ∈ ls.
Proof.
  rewrite list_elem_of_In, in_concat. split.
  - intros (l & Hl & Hx). exists l. by rewrite !list_elem_of_In.
  - intros (l & Hx & Hl). exists l. by rewrite <- !list_elem_of_In.
Qed.

Lemma strip_subseteq s : strip s ⊆ s.
Proof.
  intros x. unfold strip, rstrip. rewrite elem_of_rev.
  intros Hx. apply lstrip_subseteq. apply lstrip_subseteq in Hx.
  rewrite elem_of_rev in Hx. exact Hx.
Qed.

Lemma strip_by_subseteq space s : strip_by space s ⊆ s.
Proof.
  intros x. unfold strip_by. rewrite elem_of_rev.
  intros Hx. apply (lstrip_by_subseteq space).
  apply (lstrip_by_subseteq space) in Hx.
  rewrite elem_of_rev in Hx. exact Hx.
Qed.

Lemma int_nonneg s z : 45%N ∉ s → int s = Ok z → (0 ≤ z)%Z.
Proof.
  intros Hs. unfold int.
  pose proof (strip_by_subseteq int_space s) as Hsub.
  destruct (strip_by int_space s) as [| c ds]; [discriminate |].
  destruct (c =? 43)%N.
  { destruct (digits_value 0 false ds) as [v |] eqn:Hv; [| discriminate].
    destruct (_ <=? _)%N; [| discriminate].
    intros [= <-]. eapply digits_value_nonneg; [| exact Hv]. lia. }
  destruct (c =? 45)%N eqn:Hc.
  { exfalso. apply N.eqb_eq in Hc. subst c. apply Hs, Hsub. left. }
  destruct (digits_value 0 false (c :: ds)) as [v |] eqn:Hv; [| discriminate].
  destruct (_ <=? _)%N; [| discriminate].
  intros [= <-]. eapply digits_value_nonneg; [| exact Hv]. lia.
Qed.

Lemma split_on_subseteq sep s :
  (split_on sep s).1 ⊆ s ∧ ∀ p, p ∈ (split_on sep s).2 → p ⊆ s.
Proof.
  induction s as [| c s [IH1 IH2]]; cbn [split_on].
  - split; [done |]. intros p Hp. cbn in Hp. by apply elem_of_nil in Hp.
  - destruct (split_on sep s) as [hd tl]. cbn [fst snd] in *.
    destruct (c =? sep)%N; cbn [fst snd].
    + split; [intros x Hx; by apply elem_of_nil in Hx |].
      intros p Hp x Hx. apply list_elem_of_further.
      apply elem_of_cons in Hp as [-> | Hp]; [by apply IH1 | by eapply IH2].
    + split.
      * intros x Hx. apply elem_of_cons in Hx as [-> | Hx]; [left |].
        apply list_elem_of_further, IH1, Hx.
      * intros p Hp x Hx. apply list_elem_of_further. by eapply IH2.
Qed.

Lemma hours_minutes_nonneg h m :
  (0 ≤ h)%Z → (0 ≤ m)%Z → (0 <= inject_Z h + inject_Z m / 60)%Q.
Proof.
  intros Hh Hm. unfold Qle, Qplus, Qdiv, Qmult, Qinv, inject_Z. cbn. lia.
Qed.

Lemma parse_time_to_hours_unsigned s :
  45%N ∉ s → (0 <= parse_time_to_hours (Some s))%Q.
Proof.
  intros Hs. destruct (falsy s) eqn:Hf.
  { destruct s; [| discriminate]. apply Qle_refl. }
  rewrite parse_time_to_hours_fields by exact Hf.
  destruct (split_on_subseteq 58 s) as [Hh Hm].
  destruct (int (hours_field s)) as [h |] eqn:Hih; [| destruct (minutes_field s); apply Qle_refl].
  assert (0 ≤ h)%Z as Hh0.
  { eapply int_nonneg; [| exact Hih]. intros Hin. apply Hs, Hh, Hin. }
  unfold minutes_field in *.
  destruct (split_on 58 s).2 as [| p rest] eqn:Hrest; cbn [head].
  - apply hours_minutes_nonneg; lia.
  - destruct (int p) as [m |] eqn:Him; [| apply Qle_refl].
    apply hours_minutes_nonneg; [exact Hh0 |].
    eapply int_nonneg; [| exact Him].
    intros Hin. apply Hs. eapply Hm; [| exact Hin]. left.
Qed.

Lemma Qsum_nonneg l : Forall (λ q, (0 <= q)%Q) l → (0 <= Qsum l)%Q.
Proof.
  induction 1 as [| q l Hq _ IH]; cbn [Qsum foldr]; [apply Qle_refl |].
  fold (Qsum l). replace 0%Q with (0 + 0)%Q by reflexivity.
  apply Qplus_le_compat; assumption.
Qed.

Lemma source_rows_unsigned src :
  unsigned_source src → Forall (λ r, (0 <= r.2)%Q) (source_rows src).
Proof.
  destruct src as [| msg | | rows]; cbn; try (intros _; apply Forall_nil; exact I).
  intros Hrows. apply Forall_fmap. eapply Forall_impl; [exact Hrows |].
  intros [name cell] Hcell. cbn in *.
  destruct cell as [s |]; [| apply Qle_refl].
  apply parse_time_to_hours_unsigned, Hcell. reflexivity.
Qed.

(** C4, as the code has it: a duration string without a minus sign parses
    to a non-negative number of hours, and when no time cell of any sheet
    carries a minus sign every aggregated total is non-negative. *)
Theorem hours_nonneg_unsigned :
  (∀ s, 45%N ∉ s → (0 <= parse_time_to_hours (Some s))%Q)
  ∧ ∀ csv_paths name total,
      Forall unsigned_source csv_paths →
      (name, total) ∈ (load_time_logs csv_paths).1 →
      (0 <= total)%Q.
Proof.
  split; [exact parse_time_to_hours_unsigned |].
  intros csv_paths name total Hsrc Hin. unfold load_time_logs in Hin.
  cbn [fst] in Hin.
  apply list_elem_of_fmap in Hin as (n & [= -> ->] & _).
  unfold hours_of. apply Qsum_nonneg, Forall_fmap, Forall_forall.
  intros r Hr. apply list_elem_of_filter in Hr as [_ Hr].
  apply elem_of_concat in Hr as (rows & Hr & Hrows).
  apply list_elem_of_fmap in Hrows as (src & -> & Hin).
  apply (proj1 (Forall_forall _ _) Hsrc) in Hin.
  exact (proj1 (Forall_forall _ _) (source_rows_unsigned _ Hin) _ Hr).
Qed.

Lemma hours_nonneg_unsigned_witness :
  (0 <= parse_time_to_hours (Some (py "1:30")))%Q
  ∧ (0 <= 12600 # 3600)%Q.
Proof.
  split.
  - apply (proj1 hours_nonneg_unsigned). vm_compute. intros Hin.
    repeat (apply elem_of_cons in Hin as [Hin | Hin]; [discriminate |]).
    by apply elem_of_nil in Hin.
  - apply (proj2 hours_nonneg_unsigned
             [TimeSheet [(py "Alice", Some (py "1:30"))];
              TimeSheet [(py "Alice", Some (py "2:00"))]] (py "Alice")).
    + repeat constructor; cbn; intros s [= <-] Hin;
        vm_compute in Hin;
        repeat (apply elem_of_cons in Hin as [Hin | Hin]; [discriminate |]);
        by apply elem_of_nil in Hin.
    + vm_compute. left.
Defined.

(** C4, as stated, fails: the sign [int] accepts makes "-1:30" parse to
    half an hour below zero. *)
Lemma parse_time_to_hours_negative :
  ¬ ∀ s, (0 <= parse_time_to_hours (Some s))%Q.
Proof.
  intros Hall. specialize (Hall (py "-1:30")).
  vm_compute in Hall. apply Hall. reflexivity.
Qed.

(** ** Sanity filter of the durations *)

Lemma Qltb_true x y : Qltb x y = true ↔ (x < y)%Q.
Proof.
  unfold Qltb. rewrite negb_true_iff, <- not_true_iff_false, Qle_bool_iff.
  split; [apply Qnot_le_lt | apply Qlt_not_le].
Qed.

Lemma Qltb_false x y : Qltb x y = false ↔ (y <= x)%Q.
Proof. unfold Qltb. rewrite negb_false_iff. apply Qle_bool_iff. Qed.

Lemma clean_column_lookup col i :
  clean_column col !! i =
    (λ cell, match cell with
             | Some v => if Qltb v 0 || Qltb 720 v then None else Some v
             | None => None
             end) <$> col !! i.
Proof.
  unfold clean_column, mask_to_none. rewrite !list_lookup_fmap.
  destruct (col !! i) as [[v |] |]; cbn; try reflexivity.
  destruct (Qltb v 0); reflexivity.
Qed.

Lemma clean_column_filtered col i raw :
  col !! i = Some raw →
  filtered_duration raw (default None (clean_column col !! i)).
Proof.
  intros Hraw. rewrite clean_column_lookup, Hraw. cbn.
  destruct raw as [v |]; cbn; [| reflexivity].
  destruct (Qltb v 0) eqn:Hneg; cbn.
  { apply Qltb_true in Hneg. repeat split; try reflexivity.
    intros Hge. exfalso. exact (Qlt_not_le _ _ Hneg Hge). }
  destruct (Qltb 720 v) eqn:Hbig.
  { apply Qltb_true in Hbig. repeat split; try reflexivity.
    intros _ Hle. exfalso. exact (Qlt_not_le _ _ Hbig Hle). }
  apply Qltb_false in Hneg, Hbig. repeat split.
  - intros Hlt. exfalso. exact (Qlt_not_le _ _ Hlt Hneg).
  - intros Hlt. exfalso. exact (Qlt_not_le _ _ Hlt Hbig).
Qed.

Lemma calculate_cycle_times_lookup df i t :
  df !! i = Some t →
  calculate_cycle_times df !! i =
    Some {| row_task := t;
            hours_claimed_to_review :=
              default None (clean_column
                ((λ t, hours_between (time_claimed t) (time_ready_for_review t)) <$> df) !! i);
            hours_review_to_merged :=
              default None (clean_column
                ((λ t, hours_between (time_ready_for_review t) (time_merged t)) <$> df) !! i);
            hours_total_cycle :=
              default None (clean_column
                ((λ t, hours_between (time_claimed t) (time_merged t)) <$> df) !! i);
            is_first_task := default false (first_task_flags df !! i) |}.
Proof.
  intros Ht. unfold calculate_cycle_times.
  rewrite list_lookup_imap, Ht. reflexivity.
Qed.

Lemma hours_before_negative T :
  (inject_Z (T - hour_ns - T) / inject_Z (10 ^ 9) / 3600 < 0)%Q.
Proof.
  replace (T - hour_ns - T)%Z with (- hour_ns)%Z by lia. reflexivity.
Qed.

Lemma hours_800_above T :
  (720 < inject_Z (T + 800 * hour_ns - T) / inject_Z (10 ^ 9) / 3600)%Q.
Proof.
  replace (T + 800 * hour_ns - T)%Z with (800 * hour_ns)%Z by lia. reflexivity.
Qed.

(** C1: the sanity filter acts on each of the three durations of every
    task on its own: a negative duration and one above 720 hours become
    no-value, one from 0 to 720 hours is kept as it is (and a duration
    with a missing endpoint stays no-value).  A task merged one hour before
    it was claimed, and one merged 800 hours after, have no total cycle
    time. *)
Theorem sanity_filter_each_duration (df : list task) (i : nat) (t : task) :
  df !! i = Some t →
  ∃ r, calculate_cycle_times df !! i = Some r
    ∧ row_task r = t
    ∧ filtered_duration
        (hours_between (time_claimed t) (time_ready_for_review t))
        (hours_claimed_to_review r)
    ∧ filtered_duration
        (hours_between (time_ready_for_review t) (time_merged t))
        (hours_review_to_merged r)
    ∧ filtered_duration
        (hours_between (time_claimed t) (time_merged t))
        (hours_total_cycle r)
    ∧ (∀ T, time_claimed t = Some T → time_merged t = Some (T - hour_ns)%Z →
         hours_total_cycle r = None)
    ∧ (∀ T, time_claimed t = Some T → time_merged t = Some (T + 800 * hour_ns)%Z →
         hours_total_cycle r = None).
Proof.
  intros Ht. eexists. split; [apply calculate_cycle_times_lookup, Ht |].
  cbn [row_task hours_claimed_to_review hours_review_to_merged hours_total_cycle].
  assert (Htotal : filtered_duration
            (hours_between (time_claimed t) (time_merged t))
            (default None (clean_column
               ((λ t, hours_between (time_claimed t) (time_merged t)) <$> df) !! i))).
  { apply clean_column_filtered. rewrite list_lookup_fmap, Ht. reflexivity. }
  repeat split.
  - apply clean_column_filtered. rewrite list_lookup_fmap, Ht. reflexivity.
  - apply clean_column_filtered. rewrite list_lookup_fmap, Ht. reflexivity.
  - exact Htotal.
  - intros T Hc Hm. rewrite Hc, Hm in Htotal. cbn in Htotal.
    apply (proj1 Htotal), hours_before_negative.
  - intros T Hc Hm. rewrite Hc, Hm in Htotal. cbn in Htotal.
    apply (proj1 (proj2 Htotal)), hours_800_above.
Qed.

Lemma sanity_filter_each_duration_witness :
  ∃ r, calculate_cycle_times
         [ {| record_id := None; task_id := None; title := py "t";
              task_status := py "Merged"; expert_name := Some (py "W");
              expert_email := []; reviewer_name := Some [];
              reviewer_emails := ∅;
              time_claimed := Some (5 * hour_ns)%Z; time_in_progress := None;
              time_ready_for_review := Some (7 * hour_ns)%Z;
              time_first_ready_for_review := None;
              time_merged := Some (5 * hour_ns - hour_ns)%Z;
              reviews_count := 0; unique_reviewers := 0;
              reviews_approved_count := 0; reviews_sent_back_count := 0 |} ]
         !! 0 = Some r
       ∧ hours_total_cycle r = None.
Proof.
  destruct (sanity_filter_each_duration
    [ {| record_id := None; task_id := None; title := py "t";
         task_status := py "Merged"; expert_name := Some (py "W");
         expert_email := []; reviewer_name := Some [];
         reviewer_emails := ∅;
         time_claimed := Some (5 * hour_ns)%Z; time_in_progress := None;
         time_ready_for_review := Some (7 * hour_ns)%Z;
         time_first_ready_for_review := None;
         time_merged := Some (5 * hour_ns - hour_ns)%Z;
         reviews_count := 0; unique_reviewers := 0;
         reviews_approved_count := 0; reviews_sent_back_count := 0 |} ]
    0 _ eq_refl) as (r & Hr & _ & _ & _ & _ & Hneg & _).
  exists r. split; [exact Hr |].
  apply (Hneg (5 * hour_ns)%Z); reflexivity.
Defined.

(** ** First-task flag *)

Section FirstTask.

Lemma expert_tasks_snoc df t a :
  expert_tasks (df ++ [t]) a =
    expert_tasks df a
    ++ (if decide (expert_name t = Some a) then [(length df, t)] else []).
Proof.
  unfold expert_tasks. rewrite imap_app, filter_app. f_equal.
  cbn. rewrite Nat.add_0_r. reflexivity.
Qed.

Lemma best_claim_snoc df t a :
  best_claim (df ++ [t]) a =
    if decide (expert_name t = Some a)
    then idxmin_step (best_claim df a) (length df, time_claimed t)
    else best_claim df a.
Proof.
  unfold best_claim, claimed_column. rewrite expert_tasks_snoc, fmap_app, foldl_app.
  destruct (decide (expert_name t = Some a)); cbn; reflexivity.
Qed.

Lemma claimed_by_snoc df t a j c :
  claimed_by (df ++ [t]) a j c ↔
    claimed_by df a j c
    ∨ (j = length df ∧ expert_name t = Some a ∧ time_claimed t = Some c).
Proof.
  unfold claimed_by. split.
  - intros (t' & Hj & Ha & Hc).
    apply lookup_app_Some in Hj as [Hj | [Hge Hj]].
    + left. eauto.
    + right. apply list_lookup_singleton_Some in Hj as [Hj ->].
      split; [lia | done].
  - intros [(t' & Hj & Ha & Hc) | (-> & Ha & Hc)].
    + exists t'. split; [| done]. apply lookup_app_l_Some, Hj.
    + exists t. split; [| done]. rewrite lookup_app_r by lia.
      rewrite Nat.sub_diag. reflexivity.
Qed.

Lemma claimed_by_lt df a j c : claimed_by df a j c → j < length df.
Proof. intros (t & Hj & _). eapply lookup_lt_Some, Hj. Qed.

Lemma best_claim_inv df a : best_inv df a (best_claim df a).
Proof.
  induction df as [| t df IH] using rev_ind.
  { cbn. intros j c (t & Hj & _). discriminate. }
  rewrite best_claim_snoc.
  destruct (decide (expert_name t = Some a)) as [Ha | Ha].
  2: { destruct (best_claim df a) as [[i c0] |]; cbn in *.
       - destruct IH as [Hi Hmin]. split.
         + apply claimed_by_snoc. by left.
         + intros j c Hj. apply claimed_by_snoc in Hj as [Hj | (_ & Ha' & _)];
             [by apply Hmin | contradiction].
       - intros j c Hj. apply claimed_by_snoc in Hj as [Hj | (_ & Ha' & _)];
           [by eapply IH | contradiction]. }
  unfold idxmin_step. cbn [fst snd].
  destruct (time_claimed t) as [ct |] eqn:Hct.
  2: { destruct (best_claim df a) as [[i c0] |]; cbn in *.
       - destruct IH as [Hi Hmin]. split.
         + apply claimed_by_snoc. by left.
         + intros j c Hj. apply claimed_by_snoc in Hj as [Hj | (_ & _ & Hc)];
             [by apply Hmin | congruence].
       - intros j c Hj. apply claimed_by_snoc in Hj as [Hj | (_ & _ & Hc)];
           [by eapply IH | congruence]. }
  destruct (best_claim df a) as [[i c0] |]; cbn in *.
  - destruct IH as [Hi Hmin].
    pose proof (claimed_by_lt _ _ _ _ Hi) as Hlt.
    destruct (ct <? c0)%Z eqn:Hcmp; cbn.
    + apply Z.ltb_lt in Hcmp. split.
      * apply claimed_by_snoc. right. done.
      * intros j c Hj. apply claimed_by_snoc in Hj as [Hj | (-> & _ & Hc)].
        -- destruct (Hmin _ _ Hj). lia.
        -- assert (c = ct) by congruence. lia.
    + apply Z.ltb_ge in Hcmp. split.
      * apply claimed_by_snoc. by left.
      * intros j c Hj. apply claimed_by_snoc in Hj as [Hj | (-> & _ & Hc)].
        -- by apply Hmin.
        -- assert (c = ct) by congruence. lia.
  - split.
    + apply claimed_by_snoc. right. done.
    + intros j c Hj. apply claimed_by_snoc in Hj as [Hj | (-> & _ & Hc)].
      * exfalso. by eapply IH.
      * assert (c = ct) by congruence. lia.
Qed.

Lemma idxmin_step_found col : ∀ best i c,
  foldl idxmin_step best col = Some (i, c) →
  best = Some (i, c) ∨ (i, Some c) ∈ col.
Proof.
  induction col as [| [k cell] col IH]; intros best i c; cbn [foldl].
  { intros ->. by left. }
  intros Hscan. apply IH in Hscan as [Hstep | Hin].
  2: { right. by apply list_elem_of_further. }
  unfold idxmin_step in Hstep. cbn [fst snd] in Hstep.
  destruct cell as [v |]; [| by left].
  destruct best as [[b least] |].
  - destruct (v <? least)%Z; [| by left].
    injection Hstep as -> ->. right. left.
  - injection Hstep as -> ->. right. left.
Qed.

(** The loop body sets the flag of the row the scan ends on, if any. *)
Lemma mark_first_best df flags a :
  mark_first df flags a =
    match best_claim df a with
    | Some (i, _) => <[i := true]> flags
    | None => flags
    end.
Proof.
  unfold mark_first, idxmin. fold (best_claim df a).
  destruct (best_claim df a) as [[i c] |] eqn:Hbest; cbn.
  2: { destruct (_ && _); reflexivity. }
  apply idxmin_step_found in Hbest as [[=] | Hin].
  assert (claimed_column df a ≠ []) as Hne.
  { intros Heq. rewrite Heq in Hin. by apply elem_of_nil in Hin. }
  rewrite bool_decide_eq_true_2 by exact Hne. cbn.
  replace (existsb _ _) with true; [reflexivity |].
  symmetry. apply existsb_exists. exists (i, Some c).
  split; [by apply list_elem_of_In |].
  reflexivity.
Qed.

Lemma mark_first_length df flags a :
  length (mark_first df flags a) = length flags.
Proof.
  rewrite mark_first_best. destruct (best_claim df a) as [[i c] |];
    [apply length_insert | reflexivity].
Qed.

Lemma mark_first_lookup df flags a j :
  mark_first df flags a !! j = Some true ↔
    flags !! j = Some true
    ∨ (j < length flags ∧ ∃ c, best_claim df a = Some (j, c)).
Proof.
  rewrite mark_first_best.
  destruct (best_claim df a) as [[i c] |].
  2: { split; [by left | intros [H | (_ & c & [=])]; exact H]. }
  destruct (decide (i = j)) as [-> | Hne].
  - destruct (decide (j < length flags)) as [Hlt | Hge].
    + rewrite list_lookup_insert_eq by exact Hlt.
      split; [| done]. intros _. right. eauto.
    + rewrite list_insert_ge by lia.
      split; [by left | intros [H | (Hlt & _)]; [exact H | lia]].
  - rewrite list_lookup_insert_ne by exact Hne.
    split; [by left | intros [H | (_ & c' & [= -> _])]; [exact H | done]].
Qed.

Lemma foldl_mark_first_lookup df experts : ∀ flags j,
  foldl (mark_first df) flags experts !! j = Some true ↔
    flags !! j = Some true
    ∨ (j < length flags ∧ ∃ a c, a ∈ experts ∧ best_claim df a = Some (j, c)).
Proof.
  induction experts as [| a experts IH]; intros flags j; cbn [foldl].
  { split; [by left |]. intros [H | (_ & a & c & Hin & _)]; [exact H |].
    by apply elem_of_nil in Hin. }
  rewrite IH, mark_first_lookup, mark_first_length. split.
  - intros [[H | (Hlt & c & Hbest)] | (Hlt & a' & c & Hin & Hbest)].
    + by left.
    + right. split; [exact Hlt |]. exists a, c. split; [left | exact Hbest].
    + right. split; [exact Hlt |]. exists a', c.
      split; [by apply list_elem_of_further | exact Hbest].
  - intros [H | (Hlt & a' & c & Hin & Hbest)]; [by left; left |].
    apply elem_of_cons in Hin as [-> | Hin].
    + left. right. eauto.
    + right. eauto 6.
Qed.

Lemma elem_of_unique x l : x ∈ unique l ↔ x ∈ l.
Proof.
  induction l as [| y l IH]; [done |].
  cbn [unique]. rewrite !elem_of_cons, list_elem_of_filter, IH.
  destruct (decide (x = y)) as [Heq | Hne]; [split; by left |].
  split.
  - intros [Heq | [_ Hin]]; [by left | by right].
  - intros [Heq | Hin]; [by left | by right].
Qed.

Lemma flagged_lookup df j t :
  df !! j = Some t →
  flagged df j ↔ first_task_flags df !! j = Some true.
Proof.
  intros Ht. unfold flagged.
  rewrite (calculate_cycle_times_lookup _ _ _ Ht). split.
  - intros (r & [= <-] & Hflag). cbn in Hflag.
    destruct (first_task_flags df !! j) as [[] |]; done.
  - intros Hflag. eexists. split; [reflexivity |]. cbn. by rewrite Hflag.
Qed.

(** The flagged rows are the rows the scans of the authors end on. *)
Lemma flagged_best df j t :
  df !! j = Some t →
  flagged df j ↔ ∃ a c, expert_name t = Some a ∧ best_claim df a = Some (j, c).
Proof.
  intros Ht. rewrite (flagged_lookup _ _ _ Ht).
  unfold first_task_flags. rewrite foldl_mark_first_lookup.
  rewrite lookup_replicate, length_replicate. split.
  - intros [[[=] _] | (_ & a & c & _ & Hbest)].
    exists a, c. split; [| exact Hbest].
    pose proof (best_claim_inv df a) as Hinv. rewrite Hbest in Hinv.
    destruct Hinv as [(t' & Hj & Ha & _) _]. congruence.
  - intros (a & c & Ha & Hbest). right.
    split; [eapply lookup_lt_Some, Ht |].
    exists a, c. split; [| exact Hbest].
    apply elem_of_unique, list_elem_of_omap. exists t.
    split; [eapply list_elem_of_lookup_2, Ht | exact Ha].
Qed.

(** The flag among the rows of one author. *)
Lemma first_task_of_author df a :
  ((∃ j c, claimed_by df a j c) →
     ∃ i, earliest_claim df a i
       ∧ ∀ j t, df !! j = Some t → expert_name t = Some a →
           (flagged df j ↔ j = i))
  ∧ ((¬ ∃ j c, claimed_by df a j c) →
       ∀ j t, df !! j = Some t → expert_name t = Some a → ¬ flagged df j).
Proof.
  pose proof (best_claim_inv df a) as Hinv.
  destruct (best_claim df a) as [[i c0] |] eqn:Hbest; cbn in Hinv.
  - split.
    + intros _. exists i. split; [exists c0; exact Hinv |].
      intros j t Ht Ha. rewrite (flagged_best _ _ _ Ht). split.
      * intros (a' & c & Ha' & Hb). congruence.
      * intros ->. eauto.
    + intros Hnone. exfalso. apply Hnone. exists i, c0. apply Hinv.
  - split.
    + intros (j & c & Hj). exfalso. by eapply Hinv.
    + intros _ j t Ht Ha. rewrite (flagged_best _ _ _ Ht).
      intros (a' & c & Ha' & Hb). congruence.
Qed.

Lemma unauthored_not_flagged df j t :
  df !! j = Some t → expert_name t = None → ¬ flagged df j.
Proof.
  intros Ht Hnone. rewrite (flagged_best _ _ _ Ht).
  intros (a & c & Ha & _). congruence.
Qed.

End FirstTask.

(** C2: among the rows of one author at most one is flagged as first task.
    When a row of the author has a known claimed timestamp, the flagged row
    is the one with the least claimed timestamp of the author (the first
    such row of the frame when several share it) and no other row of the
    author is flagged; when none has, no row of the author is flagged. *)
Theorem first_task_flag_per_author (df : list task) (a : pystr) :
  (∀ i j ti tj,
     df !! i = Some ti → expert_name ti = Some a → flagged df i →
     df !! j = Some tj → expert_name tj = Some a → flagged df j →
     i = j)
  ∧ ((∃ j c, claimed_by df a j c) →
       ∃ i, earliest_claim df a i
         ∧ ∀ j t, df !! j = Some t → expert_name t = Some a →
             (flagged df j ↔ j = i))
  ∧ ((¬ ∃ j c, claimed_by df a j c) →
       ∀ j t, df !! j = Some t → expert_name t = Some a → ¬ flagged df j).
Proof.
  split; [| apply first_task_of_author].
  intros i j ti tj Hi Hai Hfi Hj Haj Hfj.
  destruct (first_task_of_author df a) as [Hsome Hnone].
  destruct (best_claim df a) as [[k c] |] eqn:Hbest.
  - pose proof (best_claim_inv df a) as Hinv. rewrite Hbest in Hinv.
    destruct Hsome as (i0 & _ & Hiff); [exists k, c; apply Hinv |].
    apply (Hiff _ _ Hi Hai) in Hfi. apply (Hiff _ _ Hj Haj) in Hfj. congruence.
  - exfalso. apply (flagged_best _ _ _ Hi) in Hfi as (a' & c & Ha' & Hb).
    congruence.
Qed.

Lemma first_task_flag_per_author_witness :
  ∃ i, earliest_claim
         [task_of (Some (py "W")) (Some 20%Z); task_of (Some (py "V")) None;
          task_of (Some (py "W")) (Some 10%Z); task_of (Some (py "W")) (Some 30%Z)]
         (py "W") i
    ∧ ∀ j t,
        [task_of (Some (py "W")) (Some 20%Z); task_of (Some (py "V")) None;
         task_of (Some (py "W")) (Some 10%Z); task_of (Some (py "W")) (Some 30%Z)]
          !! j = Some t →
        expert_name t = Some (py "W") →
        (flagged
           [task_of (Some (py "W")) (Some 20%Z); task_of (Some (py "V")) None;
            task_of (Some (py "W")) (Some 10%Z); task_of (Some (py "W")) (Some 30%Z)]
           j ↔ j = i).
Proof.
  apply (proj1 (proj2 (first_task_flag_per_author _ (py "W")))).
  exists 2, 10%Z. eexists. repeat split; reflexivity.
Defined.

(** C10, as the code has it: a record without author relation is ingested
    with the empty string as author name (and email); the rows with the
    empty name, whatever they were ingested from, form an author group like
    any other: when a record without author relation has a known claimed
    timestamp, exactly one row with the empty name is flagged, the first
    one with the earliest claimed timestamp among them. *)
Theorem authorless_first_task (to_datetime : option pystr → option Z)
  (recs : list raw_record) :
  (∀ i r, recs !! i = Some r → f_expert_user (r_fields r) = [] →
     ∃ t, (parse_record to_datetime <$> recs) !! i = Some t
       ∧ expert_name t = Some [] ∧ expert_email t = [])
  ∧ ((∃ i r c, recs !! i = Some r ∧ f_expert_user (r_fields r) = []
        ∧ to_datetime (f_time_claimed (r_fields r)) = Some c) →
       ∃ i0, earliest_claim (parse_record to_datetime <$> recs) [] i0
         ∧ ∀ j t, (parse_record to_datetime <$> recs) !! j = Some t →
             expert_name t = Some [] →
             (flagged (parse_record to_datetime <$> recs) j ↔ j = i0)).
Proof.
  assert (Hingest : ∀ i r, recs !! i = Some r → f_expert_user (r_fields r) = [] →
            ∃ t, (parse_record to_datetime <$> recs) !! i = Some t
              ∧ expert_name t = Some [] ∧ expert_email t = []
              ∧ time_claimed t = to_datetime (f_time_claimed (r_fields r))).
  { intros i r Hr Hnone. eexists. split.
    - rewrite list_lookup_fmap, Hr. reflexivity.
    - unfold parse_record. rewrite Hnone. cbn. done. }
  split.
  - intros i r Hr Hnone.
    destruct (Hingest i r Hr Hnone) as (t & Ht & Hname & Hemail & _). eauto.
  - intros (i & r & c & Hr & Hnone & Hc).
    apply first_task_of_author.
    destruct (Hingest i r Hr Hnone) as (t & Ht & Hname & _ & Hclaimed).
    exists i, c, t. rewrite Hclaimed. done.
Qed.

Lemma authorless_first_task_witness :
  ∃ i0,
    earliest_claim
      (parse_record decimal_datetime <$>
         [record_of [] [] (Some (py "50"));
          record_of [UserDict (Some (py "Ann")) None] [] (Some (py "10"));
          record_of [] [] (Some (py "40"))]) [] i0
    ∧ ∀ j t,
        (parse_record decimal_datetime <$>
           [record_of [] [] (Some (py "50"));
            record_of [UserDict (Some (py "Ann")) None] [] (Some (py "10"));
            record_of [] [] (Some (py "40"))]) !! j = Some t →
        expert_name t = Some [] →
        (flagged
           (parse_record decimal_datetime <$>
              [record_of [] [] (Some (py "50"));
               record_of [UserDict (Some (py "Ann")) None] [] (Some (py "10"));
               record_of [] [] (Some (py "40"))]) j ↔ j = i0).
Proof.
  apply (proj2 (authorless_first_task decimal_datetime _)).
  exists 0, (record_of [] [] (Some (py "50"))), 50%Z.
  repeat split; vm_compute; reflexivity.
Defined.

(** ** Reviewer emails of a task *)

Lemma unique_reviewer_emails_elem author reviewers : ∀ acc e,
  e ∈ foldl (add_reviewer_email author) acc reviewers
  ↔ e ∈ acc ∨ ∃ reviewer, reviewer ∈ reviewers ∧ reviewer_email_of author reviewer e.
Proof.
  induction reviewers as [| rv reviewers IH]; intros acc e; cbn [foldl].
  { split; [by left |]. intros [H | (rv & Hin & _)]; [exact H |].
    by apply elem_of_nil in Hin. }
  rewrite IH. clear IH. split.
  - intros [Hacc | (rv' & Hin & Hrv)].
    2: { right. exists rv'. split; [by apply list_elem_of_further | exact Hrv]. }
    destruct rv as [name email | text]; [| by left].
    unfold add_reviewer_email in Hacc. cbn zeta in Hacc.
    destruct (falsy (lower (default [] email))) eqn:Hempty; cbn in Hacc; [by left |].
    destruct (bool_decide (lower (default [] email) ≠ author)) eqn:Hauthor;
      [| by left].
    apply elem_of_union in Hacc as [Hacc | Hnew]; [by left |].
    apply elem_of_singleton in Hnew. right.
    exists (UserDict name email). split; [left |].
    exists name, email. apply bool_decide_eq_true in Hauthor. subst e.
    split; [reflexivity |]. split; [reflexivity |]. split; [| exact Hauthor].
    intros Heq. rewrite Heq in Hempty. discriminate.
  - intros [Hacc | (rv' & Hin & Hrv)].
    + left. destruct rv as [name email | text]; [| exact Hacc].
      unfold add_reviewer_email. cbn zeta. destruct (_ && _); [| exact Hacc].
      apply elem_of_union. by left.
    + apply elem_of_cons in Hin as [-> | Hin]; [| right; eauto].
      left. destruct Hrv as (name & email & -> & -> & Hne & Hna).
      unfold add_reviewer_email. cbn zeta.
      destruct (lower (default [] email)) as [| c rest] eqn:Hl; [done |].
      cbn [falsy negb andb]. rewrite bool_decide_eq_true_2 by exact Hna.
      apply elem_of_union. right. by apply elem_of_singleton.
Qed.

(** C3: the [unique_reviewers] of a task is the size of its set of
    reviewer emails, and that set holds exactly the lower-cased, non-empty
    emails of the reviewer objects of the review actions other than the
    author's email.  Review actions by a@x, b@x, a@x and the author
    author@x count as 2. *)
Theorem unique_reviewers_distinct (to_datetime : option pystr → option Z)
  (record : raw_record) :
  unique_reviewers (parse_record to_datetime record)
    = size (reviewer_emails (parse_record to_datetime record))
  ∧ (∀ e, e ∈ reviewer_emails (parse_record to_datetime record) ↔
       ∃ reviewer,
         reviewer ∈ f_reviews_reviewer_users (r_fields record)
         ∧ reviewer_email_of
             (expert_email (parse_record to_datetime record)) reviewer e)
  ∧ unique_reviewers
      (parse_record to_datetime
         (record_of [UserDict (Some (py "Author")) (Some (py "author@x"))]
            [UserDict None (Some (py "a@x")); UserDict None (Some (py "b@x"));
             UserDict None (Some (py "a@x")); UserDict None (Some (py "author@x"))]
            None)) = 2.
Proof.
  split; [| split].
  - unfold parse_record. destruct (expert_of _). reflexivity.
  - intros e. unfold parse_record. destruct (expert_of _) as [name email].
    cbn [reviewer_emails expert_email]. unfold unique_reviewer_emails.
    rewrite unique_reviewer_emails_elem. split.
    + intros [Hempty | H]; [| exact H]. by apply elem_of_empty in Hempty.
    + intros H. by right.
  - vm_compute. reflexivity.
Qed.

(** ** Pagination *)

Lemma fetch_loop_pages pages : ∀ answers all_records errors,
  Forall (λ p, falsy p.2 = false) pages →
  fetch_loop (page_answers pages ++ answers) all_records errors =
    fetch_loop answers (all_records ++ concat (fst <$> pages)) errors.
Proof.
  induction pages as [| [records cursor] pages IH]; intros answers all_records errors Hcur.
  { cbn. by rewrite app_nil_r. }
  apply Forall_cons in Hcur as [Hc Hcur]. cbn in Hc.
  cbn [page_answers fmap list_fmap app fetch_loop fst snd no_offset].
  rewrite Hc. fold (page_answers pages). rewrite IH by exact Hcur.
  cbn [concat]. by rewrite app_assoc.
Qed.

(** C6: when the pages before the failing request each came with a cursor,
    the call ends at the failure whatever would have followed, shows the
    error, and returns every record of the pages fetched before it, both
    raw and as rows of the frame. *)
Theorem fetch_partial_on_failure (to_datetime : option pystr → option Z)
  (api_key base_id table_id : pystr)
  (pages : list (list raw_record * pystr)) (msg : pystr)
  (later : list response) :
  falsy api_key = false →
  falsy base_id = false →
  Forall (λ p, falsy p.2 = false) pages →
  ∃ f,
    fetch_airtable_tasks to_datetime api_key base_id table_id
      (page_answers pages ++ RequestException msg :: later) = Some f
    ∧ fetched_errors f = [msg]
    ∧ fetched_raw f = concat (fst <$> pages)
    ∧ fetched_df f = parse_record to_datetime <$> concat (fst <$> pages).
Proof.
  intros Hkey Hbase Hcur. unfold fetch_airtable_tasks.
  rewrite Hkey, Hbase. cbn [orb].
  rewrite fetch_loop_pages by exact Hcur. cbn.
  destruct (concat (fst <$> pages)); eexists; repeat split; reflexivity.
Qed.

Lemma fetch_partial_on_failure_witness :
  ∃ f,
    fetch_airtable_tasks decimal_datetime (py "key") (py "base") (py "tbl")
      (page_answers
         [([record_of [] [] (Some (py "1")); record_of [] [] None], py "cur1");
          ([record_of [UserOther (py "Ann")] [] None], py "cur2")]
       ++ RequestException (py "timeout") :: []) = Some f
    ∧ fetched_errors f = [py "timeout"]
    ∧ fetched_raw f =
        concat (fst <$>
          [([record_of [] [] (Some (py "1")); record_of [] [] None], py "cur1");
           ([record_of [UserOther (py "Ann")] [] None], py "cur2")])
    ∧ fetched_df f =
        parse_record decimal_datetime <$> concat (fst <$>
          [([record_of [] [] (Some (py "1")); record_of [] [] None], py "cur1");
           ([record_of [UserOther (py "Ann")] [] None], py "cur2")]).
Proof.
  apply fetch_partial_on_failure; [reflexivity | reflexivity |].
  repeat constructor.
Defined.

(** ** Average handle times *)

Lemma ratio_per_unit hours n : ratio hours n = per_unit hours n.
Proof.
  unfold ratio, per_unit. destruct n as [| n].
  - rewrite bool_decide_eq_false_2 by lia. reflexivity.
  - rewrite bool_decide_eq_true_2 by lia. reflexivity.
Qed.

Lemma metric_of_ratios time_logs tasks expert :
  let m := metric_of time_logs tasks expert in
  m_expert m = expert
  ∧ m_hours_logged m = hours_of time_logs expert
  ∧ m_writer_aht m = per_unit (m_hours_logged m) (m_tasks_written m)
  ∧ m_reviewer_aht m = per_unit (m_hours_logged m) (m_reviews_done m)
  ∧ m_overall_aht m = per_unit (m_hours_logged m) (m_tasks_merged m).
Proof.
  unfold metric_of. destruct tasks as [| r tasks]; cbn.
  - repeat split; reflexivity.
  - rewrite !ratio_per_unit. repeat split; reflexivity.
Qed.

(** C5: for every worker of the metrics table each of the three AHT
    figures is the logged hours over its count (tasks written, reviews
    done, tasks merged) when the count is positive and no value when the
    count is 0. *)
Theorem aht_none_on_zero (time_logs : list (pystr * Q))
  (tasks : list cycle_row) (m : expert_metric) :
  m ∈ expert_metrics time_logs tasks →
  (m_tasks_written m = 0 → m_writer_aht m = None)
  ∧ (m_reviews_done m = 0 → m_reviewer_aht m = None)
  ∧ (m_tasks_merged m = 0 → m_overall_aht m = None)
  ∧ m_hours_logged m = hours_of time_logs (m_expert m)
  ∧ m_writer_aht m = per_unit (m_hours_logged m) (m_tasks_written m)
  ∧ m_reviewer_aht m = per_unit (m_hours_logged m) (m_reviews_done m)
  ∧ m_overall_aht m = per_unit (m_hours_logged m) (m_tasks_merged m).
Proof.
  intros Hm. unfold expert_metrics in Hm.
  apply list_elem_of_fmap in Hm as (expert & -> & _).
  destruct (metric_of_ratios time_logs tasks expert) as (He & Hh & Hw & Hr & Ho).
  rewrite Hw, Hr, Ho, He.
  repeat split; try (intros ->; reflexivity). exact Hh.
Qed.

(** A worker with five hours logged and no task written. *)
Lemma aht_none_on_zero_witness :
  m_hours_logged (metric_of [(py "W", 5%Q)] [] (py "W")) = (5 + 0)%Q
  ∧ m_tasks_written (metric_of [(py "W", 5%Q)] [] (py "W")) = 0
  ∧ m_writer_aht (metric_of [(py "W", 5%Q)] [] (py "W")) = None.
Proof.
  split; [reflexivity |]. split; [reflexivity |].
  refine (proj1 (aht_none_on_zero [(py "W", 5%Q)] [] _ _) _).
  - vm_compute. left.
  - reflexivity.
Defined.

Lemma all_reviewer_emails_elem tasks : ∀ (acc : gset pystr) e,
  e ∈ foldl (λ acc r, acc ∪ reviewer_emails (row_task r)) acc tasks
  ↔ e ∈ acc ∨ ∃ r, r ∈ tasks ∧ e ∈ reviewer_emails (row_task r).
Proof.
  induction tasks as [| r tasks IH]; intros acc e; cbn [foldl].
  { split; [by left |]. intros [H | (r & Hin & _)]; [exact H |].
    by apply elem_of_nil in Hin. }
  rewrite IH, elem_of_union. split.
  - intros [[H | H] | (r' & Hin & H)].
    + by left.
    + right. exists r. split; [left | exact H].
    + right. exists r'. split; [by apply list_elem_of_further | exact H].
  - intros [H | (r' & Hin & H)]; [by left; left |].
    apply elem_of_cons in Hin as [-> | Hin]; [by left; right | right; eauto].
Qed.

Lemma total_hours_outside_excluded time_logs :
  total_hours_for_aht time_logs = hours_outside_excluded time_logs.
Proof.
  unfold total_hours_for_aht, hours_outside_excluded.
  destruct time_logs as [| r time_logs]; [reflexivity |].
  f_equal. f_equal. apply list_filter_iff. intros [name h]. cbn.
  unfold EXCLUDED_FROM_AHT. rewrite list_elem_of_singleton. reflexivity.
Qed.

(** C9: each global AHT figure is the sum of the logged hours of the
    workers outside the excluded list over its count, no value when the
    count is 0: the number of tasks with a written status, the number of
    distinct reviewer emails over all tasks, and the number of merged
    tasks. *)
Theorem global_aht_figures (time_logs : list (pystr * Q))
  (tasks : list cycle_row) :
  ∃ reviewers : gset pystr,
    (∀ e, e ∈ reviewers ↔ ∃ r, r ∈ tasks ∧ e ∈ reviewer_emails (row_task r))
    ∧ writer_aht_overall time_logs tasks =
        per_unit (hours_outside_excluded time_logs)
          (count_status [py "Ready for Review"; py "Revising"; py "Approved";
                         py "Merged"] tasks)
    ∧ reviewer_aht_overall time_logs tasks =
        per_unit (hours_outside_excluded time_logs) (size reviewers)
    ∧ overall_aht time_logs tasks =
        per_unit (hours_outside_excluded time_logs)
          (count_status [py "Merged"] tasks).
Proof.
  exists (all_reviewer_emails tasks). split; [| split; [| split]].
  - intros e. unfold all_reviewer_emails. rewrite all_reviewer_emails_elem.
    split; [| by right]. intros [H | H]; [| exact H].
    by apply elem_of_empty in H.
  - unfold writer_aht_overall.
    rewrite ratio_per_unit, total_hours_outside_excluded. reflexivity.
  - unfold reviewer_aht_overall.
    rewrite ratio_per_unit, total_hours_outside_excluded. reflexivity.
  - unfold overall_aht.
    rewrite ratio_per_unit, total_hours_outside_excluded. f_equal.
    unfold merged_tasks, count_status. f_equal.
    apply list_filter_iff. intros r. rewrite list_elem_of_singleton. reflexivity.
Qed.

(** C10, read with "authorless" as "ingested from a record without author
    relation", fails: an author entry without a name is ingested under the
    empty name too, and when it has the earlier claim it takes the flag of
    the group, so that no authorless task is flagged. *)
Lemma authorless_flag_taken_by_unnamed_author :
  ¬ ∀ (to_datetime : option pystr → option Z) (recs : list raw_record),
      (∃ i r c, recs !! i = Some r ∧ f_expert_user (r_fields r) = []
         ∧ to_datetime (f_time_claimed (r_fields r)) = Some c) →
      ∃ i0 r0, recs !! i0 = Some r0 ∧ f_expert_user (r_fields r0) = []
        ∧ flagged (parse_record to_datetime <$> recs) i0.
Proof.
  intros Hall.
  destruct (Hall decimal_datetime
              [record_of [] [] (Some (py "50"));
               record_of [UserDict None (Some (py "b@x"))] [] (Some (py "10"))])
    as (i0 & r0 & Hr & Hnone & Hflag).
  { exists 0, (record_of [] [] (Some (py "50"))), 50%Z.
    repeat split; vm_compute; reflexivity. }
  destruct i0 as [| [| i0]]; cbn in Hr.
  - eapply flagged_lookup in Hflag; [| reflexivity].
    vm_compute in Hflag. discriminate.
  - injection Hr as <-. discriminate.
  - discriminate.
Qed.

(** * Further properties of the pipeline *)

(** ** Name normalizer: shape of the result *)

Lemma EXPERT_ALIASES_canonical_stripped :
  Forall (λ kv, strip kv.2 = kv.2) EXPERT_ALIASES.
Proof. apply (bool_decide_unpack _). vm_compute. reflexivity. Qed.

Lemma EXPERT_ALIASES_keys_stripped :
  Forall (λ kv, strip (lower kv.1) = lower kv.1) EXPERT_ALIASES.
Proof. apply (bool_decide_unpack _). vm_compute. reflexivity. Qed.

(** Aliases that agree up to case have the same canonical name. *)
Lemma EXPERT_ALIASES_consistent :
  Forall (λ kv, Forall (λ kv', lower kv.1 = lower kv'.1 → kv.2 = kv'.2)
                  EXPERT_ALIASES) EXPERT_ALIASES.
Proof. apply (bool_decide_unpack _). vm_compute. reflexivity. Qed.

Lemma alias_consistent k c k' c' :
  (k, c) ∈ EXPERT_ALIASES → (k', c') ∈ EXPERT_ALIASES →
  lower k = lower k' → c = c'.
Proof.
  intros Hk Hk' Heq.
  pose proof (proj1 (Forall_forall _ _) EXPERT_ALIASES_consistent _ Hk) as Hrow.
  exact (proj1 (Forall_forall _ _) Hrow _ Hk' Heq).
Qed.

Lemma dict_get_elem d k c : dict_get d k = Some c → (k, c) ∈ d.
Proof.
  unfold dict_get. intros Hget.
  apply fmap_Some in Hget as ([i [k' c']] & Hfind & ->).
  apply list_find_Some in Hfind as (Hi & Hk & _). cbn in *. subst k'.
  eapply list_elem_of_lookup_2, Hi.
Qed.

Lemma find_lower_elem d n c :
  find_lower d n = Some c → ∃ k, (k, c) ∈ d ∧ lower k = n.
Proof.
  unfold find_lower. intros Hget.
  apply fmap_Some in Hget as ([i [k' c']] & Hfind & ->).
  apply list_find_Some in Hfind as (Hi & Hk & _). cbn in *.
  exists k'. split; [eapply list_elem_of_lookup_2, Hi | exact Hk].
Qed.

Lemma find_lower_is_Some d n k c :
  (k, c) ∈ d → lower k = n → is_Some (find_lower d n).
Proof.
  intros Hin Hk. unfold find_lower.
  destruct (list_find (λ kv, lower kv.1 = n) d) as [[i kv] |] eqn:Hfind;
    [by eexists |].
  exfalso. apply list_find_None in Hfind.
  exact (proj1 (Forall_forall _ _) Hfind _ Hin Hk).
Qed.

(** X1: a normalized name never carries leading or trailing whitespace:
    stripping the result of the normalizer changes nothing. *)
Theorem normalize_expert_name_stripped (x : pystr) :
  strip (normalize_expert_name x) = normalize_expert_name x.
Proof.
  unfold normalize_expert_name, normalize_with.
  destruct (falsy x) eqn:Hx.
  { destruct x; [reflexivity | discriminate]. }
  destruct (dict_get EXPERT_ALIASES x) as [c |] eqn:Hget.
  { apply dict_get_elem in Hget.
    exact (proj1 (Forall_forall _ _) EXPERT_ALIASES_canonical_stripped _ Hget). }
  cbn zeta.
  destruct (find_lower EXPERT_ALIASES (strip (lower x))) as [c |] eqn:Hscan.
  { apply find_lower_elem in Hscan as (k & Hin & _).
    exact (proj1 (Forall_forall _ _) EXPERT_ALIASES_canonical_stripped _ Hin). }
  apply strip_idemp.
Qed.

(** X2: alias matching ignores case and surrounding whitespace: a
    non-empty name that, lower-cased and stripped, equals the lower-cased
    form of an alias is mapped to the canonical name of that alias. *)
Theorem normalize_alias_any_case (k c x : pystr) :
  (k, c) ∈ EXPERT_ALIASES →
  x ≠ [] →
  strip (lower x) = lower k →
  normalize_expert_name x = c.
Proof.
  intros Hk Hx Hmatch. unfold normalize_expert_name, normalize_with.
  destruct x as [| ch x']; [done |]. cbn [falsy].
  destruct (dict_get EXPERT_ALIASES (ch :: x')) as [c' |] eqn:Hget.
  { apply dict_get_elem in Hget. symmetry.
    apply (alias_consistent _ _ _ _ Hk Hget).
    rewrite <- Hmatch.
    exact (proj1 (Forall_forall _ _) EXPERT_ALIASES_keys_stripped _ Hget). }
  cbn zeta.
  destruct (find_lower_is_Some EXPERT_ALIASES _ k c Hk (eq_sym Hmatch))
    as [c' Hscan].
  rewrite Hscan. apply find_lower_elem in Hscan as (k' & Hin & Hk').
  symmetry. apply (alias_consistent _ _ _ _ Hk Hin). congruence.
Qed.

Lemma normalize_alias_any_case_witness :
  normalize_expert_name (py "  BEHZAD Ansarinejad - physics ") = py "Behzad".
Proof.
  apply (normalize_alias_any_case (py "Behzad Ansarinejad - Physics")).
  - vm_compute. do 5 right. left.
  - discriminate.
  - vm_compute. reflexivity.
Defined.

(** X3: a name that matches no alias, even up to case and surrounding
    whitespace, is only stripped. *)
Theorem normalize_unmatched_strips (x : pystr) :
  (∀ k c, (k, c) ∈ EXPERT_ALIASES → lower k ≠ strip (lower x)) →
  normalize_expert_name x = strip x.
Proof.
  intros Hnone. unfold normalize_expert_name, normalize_with.
  destruct (falsy x) eqn:Hx.
  { destruct x; [reflexivity | discriminate]. }
  assert (find_lower EXPERT_ALIASES (strip (lower x)) = None) as Hscan.
  { destruct (find_lower _ _) as [c |] eqn:Hscan; [| reflexivity].
    apply find_lower_elem in Hscan as (k & Hin & Hk).
    exfalso. exact (Hnone _ _ Hin Hk). }
  destruct (dict_get EXPERT_ALIASES x) as [c |] eqn:Hget.
  - exfalso. apply dict_get_elem in Hget. apply (Hnone _ _ Hget).
    symmetry.
    exact (proj1 (Forall_forall _ _) EXPERT_ALIASES_keys_stripped _ Hget).
  - cbn zeta. rewrite Hscan. reflexivity.
Qed.

Lemma normalize_unmatched_strips_witness :
  normalize_expert_name (py " Ada Lovelace ") = py "Ada Lovelace".
Proof.
  apply (normalize_unmatched_strips (py " Ada Lovelace ")).
  intros k c Hin. unfold EXPERT_ALIASES in Hin.
  repeat (apply elem_of_cons in Hin as [[= -> ->] | Hin];
          [vm_compute; discriminate |]).
  by apply elem_of_nil in Hin.
Defined.

(** ** Duration strings made of digits *)

Lemma is_digit_not_space c : is_digit c = true → int_space c = false.
Proof.
  unfold is_digit, int_space. intros Hd.
  apply andb_true_iff in Hd as [Hlo Hhi].
  apply N.leb_le in Hlo, Hhi.
  repeat match goal with
         | |- context [(?a <=? ?b)%N] => destruct (N.leb_spec a b); try lia
         | |- context [(?a =? ?b)%N] => destruct (N.eqb_spec a b); try lia
         end.
  all: reflexivity.
Qed.

Lemma is_digit_plain c :
  is_digit c = true → (c =? 43)%N = false ∧ (c =? 45)%N = false ∧ c ≠ 58%N.
Proof.
  unfold is_digit. intros Hd. apply andb_true_iff in Hd as [Hlo Hhi].
  apply N.leb_le in Hlo, Hhi.
  repeat split; [apply N.eqb_neq; lia | apply N.eqb_neq; lia | lia].
Qed.

Lemma is_digit_decimal c :
  is_digit c = true → decimal_digit c = Some (Z.of_N (c - 48)).
Proof.
  unfold is_digit. intros Hd. apply andb_true_iff in Hd as [Hlo Hhi].
  apply N.leb_le in Hlo, Hhi.
  unfold decimal_digit, decimal_zeros. cbn [find].
  replace (48 <=? c)%N with true by (symmetry; apply N.leb_le; lia).
  replace (c <? 48 + 10)%N with true by (symmetry; apply N.ltb_lt; lia).
  reflexivity.
Qed.

Lemma digits_value_digits ds : ∀ acc after,
  Forall (λ c, is_digit c = true) ds →
  (ds ≠ [] ∨ after = true) →
  digits_value acc after ds =
    Some (foldl (λ acc c, 10 * acc + Z.of_N (c - 48))%Z acc ds).
Proof.
  induction ds as [| c ds IH]; intros acc after Hds Hne; cbn [digits_value foldl].
  - destruct Hne as [Hne | ->]; [done | reflexivity].
  - apply Forall_cons in Hds as [Hc Hds]. rewrite (is_digit_decimal c Hc).
    apply IH; [exact Hds | by right].
Qed.

Lemma count_digits_le s : count_digits s ≤ length s.
Proof. unfold count_digits. apply length_filter. Qed.

Lemma lstrip_by_unspaced space c s :
  space c = false → lstrip_by space (c :: s) = c :: s.
Proof. intros Hc. cbn [lstrip_by]. rewrite Hc. reflexivity. Qed.

Lemma strip_digits ds :
  Forall (λ c, is_digit c = true) ds → strip_by int_space ds = ds.
Proof.
  intros Hds. destruct ds as [| c ds]; [reflexivity |].
  unfold strip_by.
  rewrite lstrip_by_unspaced
    by (apply is_digit_not_space; by apply Forall_cons in Hds as [Hc _]).
  assert (Forall (λ c, is_digit c = true) (rev (c :: ds))) as Hrev.
  { apply Forall_forall. intros d Hd. apply (proj1 (elem_of_rev _ _)) in Hd.
    exact (proj1 (Forall_forall _ _) Hds _ Hd). }
  destruct (rev (c :: ds)) as [| d ds'] eqn:Hr.
  { apply (f_equal (@length N)) in Hr. rewrite length_rev in Hr. discriminate. }
  rewrite lstrip_by_unspaced
    by (apply is_digit_not_space; by apply Forall_cons in Hrev as [Hd _]).
  rewrite <- Hr. apply rev_involutive.
Qed.

Lemma int_digits ds :
  all_digits ds → length ds ≤ 4300 → int ds = Ok (decimal_value ds).
Proof.
  intros [Hne Hds] Hlen. unfold int. rewrite strip_digits by exact Hds.
  destruct ds as [| c ds]; [done |].
  pose proof (proj1 (Forall_cons _ _ _) Hds) as [Hc _].
  destruct (is_digit_plain c Hc) as (Hplus & Hminus & _).
  rewrite Hplus, Hminus.
  rewrite (digits_value_digits (c :: ds) 0 false Hds) by (by left).
  replace (_ <=? _)%N with true; [reflexivity |].
  symmetry. apply N.leb_le. pose proof (count_digits_le (c :: ds)).
  unfold int_max_str_digits. lia.
Qed.

Lemma split_on_no_sep sep s : sep ∉ s → split_on sep s = (s, []).
Proof.
  induction s as [| c s IH]; intros Hs; [reflexivity |].
  cbn [split_on]. rewrite IH by (intros Hin; apply Hs; by right).
  replace (c =? sep)%N with false; [reflexivity |].
  symmetry. apply N.eqb_neq. intros ->. apply Hs. left.
Qed.

Lemma split_on_first sep a rest :
  sep ∉ a →
  split_on sep (a ++ sep :: rest) =
    (a, (split_on sep rest).1 :: (split_on sep rest).2).
Proof.
  induction a as [| c a IH]; intros Ha; cbn [app split_on].
  - destruct (split_on sep rest) as [hd tl]. rewrite N.eqb_refl. reflexivity.
  - rewrite IH by (intros Hin; apply Ha; by right).
    replace (c =? sep)%N with false; [reflexivity |].
    symmetry. apply N.eqb_neq. intros ->. apply Ha. left.
Qed.

Lemma digits_no_colon ds :
  Forall (λ c, is_digit c = true) ds → 58%N ∉ ds.
Proof.
  intros Hds Hin. apply (proj1 (Forall_forall _ _) Hds) in Hin.
  by destruct (is_digit_plain _ Hin) as (_ & _ & Hne).
Qed.

(** X4: a duration written as ASCII digits, with at most 308 digits in
    each field (so that both numbers fit a float), is read as hours plus
    minutes over sixty, whatever the number of minutes; without a colon
    the minutes are zero, and whatever follows a second colon (seconds,
    say) is ignored. *)
Theorem parse_time_to_hours_digits (h m rest : pystr) :
  all_digits h → length h ≤ 308 →
  all_digits m → length m ≤ 308 →
  parse_time_to_hours (Some h)
    = (inject_Z (decimal_value h) + inject_Z 0 / 60)%Q
  ∧ parse_time_to_hours (Some (h ++ 58%N :: m))
    = (inject_Z (decimal_value h) + inject_Z (decimal_value m) / 60)%Q
  ∧ parse_time_to_hours (Some (h ++ 58%N :: m ++ 58%N :: rest))
    = (inject_Z (decimal_value h) + inject_Z (decimal_value m) / 60)%Q.
Proof.
  intros Hh Hhlen Hm Hmlen.
  pose proof (digits_no_colon h (proj2 Hh)) as Hch.
  pose proof (digits_no_colon m (proj2 Hm)) as Hcm.
  assert (int h = Ok (decimal_value h)) as Hih by (apply int_digits; [done | lia]).
  assert (int m = Ok (decimal_value m)) as Him by (apply int_digits; [done | lia]).
  assert (∀ tail, falsy (h ++ tail) = false) as Hne.
  { intros tail. destruct Hh as [Hne _]. by destruct h. }
  split; [| split].
  - rewrite parse_time_to_hours_fields
      by (rewrite <- (app_nil_r h); apply Hne).
    unfold hours_field, minutes_field. rewrite split_on_no_sep by exact Hch.
    cbn [fst snd head]. rewrite Hih. reflexivity.
  - rewrite parse_time_to_hours_fields by apply Hne.
    unfold hours_field, minutes_field. rewrite split_on_first by exact Hch.
    rewrite split_on_no_sep by exact Hcm. cbn [fst snd head].
    rewrite Hih, Him. reflexivity.
  - rewrite parse_time_to_hours_fields by apply Hne.
    unfold hours_field, minutes_field. rewrite split_on_first by exact Hch.
    rewrite split_on_first by exact Hcm. cbn [fst snd head].
    rewrite Hih, Him. reflexivity.
Qed.

Lemma parse_time_to_hours_digits_witness :
  parse_time_to_hours (Some (py "1:90:59")) = (inject_Z 1 + inject_Z 90 / 60)%Q.
Proof.
  apply (parse_time_to_hours_digits (py "1") (py "90") (py "59")).
  - split; [discriminate | repeat constructor].
  - cbn. lia.
  - split; [discriminate | repeat constructor].
  - cbn. lia.
Defined.

(** ** Aggregation of the time logs *)

Lemma NoDup_unique l : NoDup (unique l).
Proof.
  induction l as [| x l IH]; cbn [unique]; [by apply NoDup_nil |].
  apply NoDup_cons. split; [| by apply NoDup_filter].
  intros Hin. apply list_elem_of_filter in Hin as [Hne _]. by apply Hne.
Qed.

Lemma load_time_logs_names csv_paths :
  fst <$> (load_time_logs csv_paths).1 = unique (fst <$> pooled_rows csv_paths).
Proof.
  unfold load_time_logs, pooled_rows. cbn [fst].
  rewrite <- list_fmap_compose. apply list_fmap_id.
Qed.

Lemma load_time_logs_hours csv_paths :
  snd <$> (load_time_logs csv_paths).1 =
    hours_of (pooled_rows csv_paths) <$> unique (fst <$> pooled_rows csv_paths).
Proof.
  unfold load_time_logs, pooled_rows. cbn [fst].
  rewrite <- list_fmap_compose. reflexivity.
Qed.

(** X5: the aggregated time-log frame has one row per worker: no name
    occurs twice, and the names are those of the pooled rows. *)
Theorem load_time_logs_one_row_per_worker (csv_paths : list csv_source) :
  NoDup (fst <$> (load_time_logs csv_paths).1)
  ∧ ∀ name, name ∈ fst <$> (load_time_logs csv_paths).1
            ↔ name ∈ fst <$> pooled_rows csv_paths.
Proof.
  rewrite load_time_logs_names. split; [apply NoDup_unique |].
  intros name. apply elem_of_unique.
Qed.

Lemma normalize_expert_name_canonical x :
  canonical_name (normalize_expert_name x).
Proof.
  unfold canonical_name, normalize_expert_name.
  apply normalize_with_idempotent, EXPERT_ALIASES_canonical_fixed.
Qed.

Lemma pooled_rows_canonical csv_paths name :
  name ∈ fst <$> pooled_rows csv_paths → canonical_name name.
Proof.
  intros Hin. apply list_elem_of_fmap in Hin as ([n h] & -> & Hin).
  apply elem_of_concat in Hin as (rows & Hin & Hrows).
  apply list_elem_of_fmap in Hrows as (src & -> & _).
  destruct src as [| msg | | sheet]; cbn in Hin;
    try (by apply elem_of_nil in Hin).
  apply list_elem_of_fmap in Hin as (r & [= -> _] & _).
  apply normalize_expert_name_canonical.
Qed.

(** X6: the names the tables are joined on are canonical: the normalizer
    leaves every worker name of the aggregated time-log frame and every
    author and reviewer name of an ingested task as it is. *)
Theorem join_keys_canonical (csv_paths : list csv_source)
  (to_datetime : option pystr → option Z) (record : raw_record) :
  (∀ name, name ∈ fst <$> (load_time_logs csv_paths).1 → canonical_name name)
  ∧ (∃ author, expert_name (parse_record to_datetime record) = Some author
       ∧ canonical_name author)
  ∧ (∃ reviewer, reviewer_name (parse_record to_datetime record) = Some reviewer
       ∧ canonical_name reviewer).
Proof.
  split; [| split].
  - intros name Hin. rewrite load_time_logs_names in Hin.
    apply (proj1 (elem_of_unique _ _)) in Hin.
    exact (pooled_rows_canonical _ _ Hin).
  - unfold parse_record.
    destruct (f_expert_user (r_fields record)) as [| [name email | text] rest];
      cbn; eexists; (split; [reflexivity |]);
      first [apply normalize_expert_name_canonical | reflexivity].
  - unfold parse_record. destruct (expert_of _).
    cbn [reviewer_name]. eexists. split; [reflexivity |].
    unfold reviewer_of.
    destruct (f_expert_reviewer_user (r_fields record)) as [| [name email | text] rest];
      first [apply normalize_expert_name_canonical | reflexivity].
Qed.

Lemma hours_of_cons n0 h0 rows name :
  hours_of ((n0, h0) :: rows) name =
    if decide (n0 = name) then (h0 + hours_of rows name)%Q
    else hours_of rows name.
Proof.
  unfold hours_of. rewrite filter_cons. cbn [fst].
  destruct (decide (n0 = name)); reflexivity.
Qed.

Lemma Qsum_hours_of_cons n0 h0 rows names :
  NoDup names →
  (Qsum (hours_of ((n0, h0) :: rows) <$> names)
   == (if decide (n0 ∈ names) then h0 else 0) + Qsum (hours_of rows <$> names))%Q.
Proof.
  induction names as [| n names IH]; intros Hnd.
  { cbn. destruct (decide _) as [Hin | _]; [by apply elem_of_nil in Hin |].
    reflexivity. }
  apply NoDup_cons in Hnd as [Hn Hnd]. specialize (IH Hnd).
  cbn [fmap list_fmap Qsum foldr].
  fold (Qsum (hours_of ((n0, h0) :: rows) <$> names)).
  fold (Qsum (hours_of rows <$> names)).
  rewrite IH, hours_of_cons.
  destruct (decide (n0 = n)) as [-> | Hne].
  - rewrite (decide_True (P := n ∈ n :: names)) by left.
    rewrite (decide_False (P := n ∈ names)) by exact Hn. ring.
  - destruct (decide (n0 ∈ names)) as [Hin | Hin].
    + rewrite (decide_True (P := n0 ∈ n :: names)) by (by right). ring.
    + rewrite (decide_False (P := n0 ∈ n :: names)).
      * ring.
      * intros Hc. apply elem_of_cons in Hc as [Hc | Hc]; [by apply Hne | done].
Qed.

Lemma Qsum_hours_of_all rows : ∀ names,
  NoDup names →
  (∀ r, r ∈ rows → r.1 ∈ names) →
  (Qsum (hours_of rows <$> names) == Qsum (snd <$> rows))%Q.
Proof.
  induction rows as [| [n0 h0] rows IH]; intros names Hnd Hall.
  { clear. induction names as [| n names IH]; [reflexivity |].
    cbn [fmap list_fmap Qsum foldr]. fold (Qsum (hours_of [] <$> names)).
    rewrite IH. reflexivity. }
  rewrite Qsum_hours_of_cons by exact Hnd.
  rewrite decide_True by (apply (Hall (n0, h0)); left).
  rewrite IH; [reflexivity | exact Hnd |].
  intros r Hr. apply Hall. by right.
Qed.

(** X7: aggregation loses no time: the hours of the aggregated frame add
    up to the hours of all the pooled rows. *)
Theorem load_time_logs_total_preserved (csv_paths : list csv_source) :
  (Qsum (snd <$> (load_time_logs csv_paths).1)
   == Qsum (snd <$> pooled_rows csv_paths))%Q.
Proof.
  rewrite load_time_logs_hours.
  apply Qsum_hours_of_all; [apply NoDup_unique |].
  intros r Hr. apply elem_of_unique. by apply list_elem_of_fmap_2.
Qed.

Lemma hours_of_grouped (f : pystr → Q) names name :
  NoDup names →
  (hours_of ((λ n, (n, f n)) <$> names) name
   == if decide (name ∈ names) then f name else 0)%Q.
Proof.
  induction names as [| n names IH]; intros Hnd.
  { cbn. destruct (decide _) as [Hin | _]; [by apply elem_of_nil in Hin |].
    reflexivity. }
  apply NoDup_cons in Hnd as [Hn Hnd]. specialize (IH Hnd).
  cbn [fmap list_fmap]. rewrite hours_of_cons.
  destruct (decide (n = name)) as [-> | Hne].
  - rewrite (decide_True (P := name ∈ name :: names)) by left.
    fold (list_fmap _ _ (λ n, (n, f n)) names).
    rewrite IH, (decide_False (P := name ∈ names)) by exact Hn. ring.
  - fold (list_fmap _ _ (λ n, (n, f n)) names). rewrite IH.
    destruct (decide (name ∈ names)) as [Hin | Hin].
    + rewrite (decide_True (P := name ∈ n :: names)) by (by right). reflexivity.
    + rewrite (decide_False (P := name ∈ n :: names)); [reflexivity |].
      intros Hc. apply elem_of_cons in Hc as [Hc | Hc]; [by apply Hne | done].
Qed.

Lemma hours_of_absent rows name :
  name ∉ fst <$> rows → hours_of rows name = 0%Q.
Proof.
  induction rows as [| [n h] rows IH]; intros Hnot; [reflexivity |].
  rewrite hours_of_cons. rewrite decide_False.
  - apply IH. intros Hin. apply Hnot. by right.
  - intros ->. apply Hnot. left.
Qed.

(** X8: looking a worker up in the aggregated frame gives the sum of the
    hours of all the pooled rows of that worker, and zero for a worker
    without rows. *)
Theorem load_time_logs_lookup (csv_paths : list csv_source) (name : pystr) :
  (hours_of (load_time_logs csv_paths).1 name
   == hours_of (pooled_rows csv_paths) name)%Q.
Proof.
  unfold load_time_logs. cbn [fst]. fold (pooled_rows csv_paths).
  rewrite hours_of_grouped by apply NoDup_unique.
  destruct (decide (name ∈ unique (fst <$> pooled_rows csv_paths))) as [Hin | Hin];
    [reflexivity |].
  rewrite hours_of_absent; [reflexivity |].
  intros Hc. apply Hin, elem_of_unique, Hc.
Qed.

(** ** Pagination: the other ways a fetch ends *)

(** X10: when the API answers with pages that each carry a cursor and
    then with a page without offset (absent or empty), the call returns the
    records of all these pages in order, raw and as rows, and shows no
    error; what the API would answer after that plays no part. *)
Theorem fetch_complete (to_datetime : option pystr → option Z)
  (api_key base_id table_id : pystr)
  (pages : list (list raw_record * pystr)) (last : list raw_record)
  (offset : option pystr) (later : list response) :
  falsy api_key = false →
  falsy base_id = false →
  Forall (λ p, falsy p.2 = false) pages →
  no_offset offset = true →
  ∃ f,
    fetch_airtable_tasks to_datetime api_key base_id table_id
      (page_answers pages ++ PageJson last offset :: later) = Some f
    ∧ fetched_errors f = []
    ∧ fetched_raw f = concat (fst <$> pages) ++ last
    ∧ fetched_df f = parse_record to_datetime <$> (concat (fst <$> pages) ++ last).
Proof.
  intros Hkey Hbase Hcur Hend. unfold fetch_airtable_tasks.
  rewrite Hkey, Hbase. cbn [orb].
  rewrite fetch_loop_pages by exact Hcur. cbn [fetch_loop app].
  rewrite Hend. cbn.
  destruct (concat (fst <$> pages) ++ last); eexists; repeat split; reflexivity.
Qed.

Lemma fetch_complete_witness :
  ∃ f,
    fetch_airtable_tasks decimal_datetime (py "key") (py "base") (py "tbl")
      (page_answers [([record_of [] [] (Some (py "1"))], py "cur1")]
       ++ PageJson [record_of [UserOther (py "Ann")] [] None] (Some [])
       :: [RequestException (py "late")]) = Some f
    ∧ fetched_errors f = []
    ∧ fetched_raw f =
        concat (fst <$> [([record_of [] [] (Some (py "1"))], py "cur1")])
        ++ [record_of [UserOther (py "Ann")] [] None]
    ∧ fetched_df f =
        parse_record decimal_datetime <$>
          (concat (fst <$> [([record_of [] [] (Some (py "1"))], py "cur1")])
           ++ [record_of [UserOther (py "Ann")] [] None]).
Proof.
  apply fetch_complete; [reflexivity | reflexivity | | reflexivity].
  repeat constructor.
Defined.

Lemma fetch_loop_result answers : ∀ all_records errors all errs,
  fetch_loop answers all_records errors = Some (all, errs) →
  (errs = errors ∨ ∃ msg, errs = errors ++ [msg])
  ∧ ∃ more, all = all_records ++ more
      ∧ ∀ r, r ∈ more →
          ∃ records offset, PageJson records offset ∈ answers ∧ r ∈ records.
Proof.
  induction answers as [| [msg | records offset] answers IH];
    intros all_records errors all errs; cbn [fetch_loop].
  - discriminate.
  - intros [= <- <-]. split; [right; eauto |].
    exists []. split; [by rewrite app_nil_r |].
    intros r Hr. by apply elem_of_nil in Hr.
  - destruct (no_offset offset).
    + intros [= <- <-]. split; [by left |].
      exists records. split; [reflexivity |].
      intros r Hr. exists records, offset. split; [left | exact Hr].
    + intros Hrest. apply IH in Hrest as (Herrs & more & -> & Hmore).
      split; [exact Herrs |].
      exists (records ++ more). split; [by rewrite app_assoc |].
      intros r Hr. apply elem_of_app in Hr as [Hr | Hr].
      * exists records, offset. split; [left | exact Hr].
      * destruct (Hmore r Hr) as (recs & off & Hin & Hrec).
        exists recs, off. split; [by right | exact Hrec].
Qed.

(** X11: whatever the API answers, a call that returns gives one row per
    raw record, in the same order, shows at most one error, and returns only
    records that some answered page contained. *)
Theorem fetch_result_invariant (to_datetime : option pystr → option Z)
  (api_key base_id table_id : pystr) (answers : list response) (f : fetched) :
  fetch_airtable_tasks to_datetime api_key base_id table_id answers = Some f →
  fetched_df f = parse_record to_datetime <$> fetched_raw f
  ∧ length (fetched_errors f) ≤ 1
  ∧ ∀ r, r ∈ fetched_raw f →
      ∃ records offset, PageJson records offset ∈ answers ∧ r ∈ records.
Proof.
  unfold fetch_airtable_tasks.
  destruct (falsy api_key || falsy base_id).
  { intros [= <-]. cbn. repeat split; [lia |].
    intros r Hr. by apply elem_of_nil in Hr. }
  destruct (fetch_loop answers [] []) as [[all errs] |] eqn:Hloop; [| discriminate].
  apply fetch_loop_result in Hloop as (Herrs & more & -> & Hmore).
  cbn [app mbind option_bind] in *.
  assert (length errs ≤ 1) as Hlen.
  { destruct Herrs as [-> | (msg & ->)]; cbn; lia. }
  destruct more as [| r0 more]; intros [= <-]; cbn [fetched_df fetched_raw fetched_errors].
  - repeat split; [exact Hlen |]. intros r Hr. by apply elem_of_nil in Hr.
  - repeat split; [exact Hlen | exact Hmore].
Qed.

Lemma fetch_result_invariant_witness :
  length (fetched_errors
            {| fetched_df := []; fetched_raw := [];
               fetched_errors := [py "boom"] |}) ≤ 1.
Proof.
  refine (proj1 (proj2 (fetch_result_invariant decimal_datetime
            (py "key") (py "base") (py "tbl")
            [RequestException (py "boom")] _ _))).
  reflexivity.
Defined.

(** X12: the loop ends exactly when an answer is a failure or a page
    without offset: the call returns if one of the answers is such, and
    with API key and base id given it asks for a further page as long as
    every page carries a cursor. *)
Theorem fetch_ends_iff (to_datetime : option pystr → option Z)
  (api_key base_id table_id : pystr) (answers : list response) :
  falsy api_key = false →
  falsy base_id = false →
  is_Some (fetch_airtable_tasks to_datetime api_key base_id table_id answers)
  ↔ Exists (λ answer, ends_pagination answer = true) answers.
Proof.
  intros Hkey Hbase. unfold fetch_airtable_tasks.
  rewrite Hkey, Hbase. cbn [orb].
  assert (∀ all_records errors,
            is_Some (fetch_loop answers all_records errors)
            ↔ Exists (λ answer, ends_pagination answer = true) answers) as Hloop.
  { induction answers as [| [msg | records offset] answers IH];
      intros all_records errors; cbn [fetch_loop].
    - split; [intros [? [=]] | intros H; inversion H].
    - split; [intros _; by left | intros _; by eexists].
    - destruct (no_offset offset) eqn:Hoff.
      + split; [intros _; by left | intros _; by eexists].
      + rewrite IH. split; [intros H; by right |].
        intros H. apply Exists_cons in H as [H | H]; [| exact H].
        cbn in H. congruence. }
  rewrite <- (Hloop [] []).
  destruct (fetch_loop answers [] []) as [[all errs] |]; cbn.
  - destruct all; split; intros _; by eexists.
  - split; intros [? [=]].
Qed.

Lemma fetch_ends_iff_witness :
  is_Some (fetch_airtable_tasks decimal_datetime (py "key") (py "base") (py "tbl")
             [PageJson [] (Some (py "c")); PageJson [] None])
  ↔ Exists (λ answer, ends_pagination answer = true)
       [PageJson [] (Some (py "c")); PageJson [] None].
Proof. apply fetch_ends_iff; reflexivity. Defined.

(** ** Reviewer emails: bounds and insensitivity to repetition *)

Lemma add_reviewer_email_size author acc reviewer :
  size (add_reviewer_email author acc reviewer) ≤ S (size acc).
Proof.
  unfold add_reviewer_email. destruct reviewer as [name email | text]; [| lia].
  cbn zeta. destruct (_ && _); [| lia].
  rewrite size_union_alt.
  pose proof (subseteq_size ({[lower (default [] email)]} ∖ acc)
                ({[lower (default [] email)]} : gset pystr)) as Hle.
  rewrite size_singleton in Hle.
  assert ({[lower (default [] email)]} ∖ acc
            ⊆ ({[lower (default [] email)]} : gset pystr)) as Hsub.
  { intros y Hy. by apply elem_of_difference in Hy as [Hy _]. }
  specialize (Hle Hsub). lia.
Qed.

Lemma unique_reviewer_emails_size author reviewers : ∀ acc,
  size (foldl (add_reviewer_email author) acc reviewers)
    ≤ size acc + length reviewers.
Proof.
  induction reviewers as [| rv reviewers IH]; intros acc; cbn [foldl length];
    [lia |].
  etransitivity; [apply IH |].
  pose proof (add_reviewer_email_size author acc rv). lia.
Qed.

(** X13: a task never has more unique reviewers than review actions, and
    none at all without review actions. *)
Theorem unique_reviewers_bounded (to_datetime : option pystr → option Z)
  (record : raw_record) :
  unique_reviewers (parse_record to_datetime record)
    ≤ length (f_reviews_reviewer_users (r_fields record)).
Proof.
  unfold parse_record. destruct (expert_of _) as [name email].
  cbn [unique_reviewers]. unfold unique_reviewer_emails.
  etransitivity; [apply unique_reviewer_emails_size |].
  rewrite size_empty. lia.
Qed.

(** X14: the reviewer emails of a task depend only on which review
    actions occur, not on their order or on how often each is repeated. *)
Theorem unique_reviewer_emails_order_free (reviewers reviewers' : list user_entry)
  (author : pystr) :
  (∀ rv, rv ∈ reviewers ↔ rv ∈ reviewers') →
  unique_reviewer_emails reviewers author
    = unique_reviewer_emails reviewers' author.
Proof.
  intros Hsame. apply set_eq. intros e. unfold unique_reviewer_emails.
  rewrite !unique_reviewer_emails_elem.
  split; (intros [Hempty | (rv & Hin & Hrv)];
          [by apply elem_of_empty in Hempty |]);
    right; exists rv; (split; [by apply Hsame | exact Hrv]).
Qed.

Lemma unique_reviewer_emails_order_free_witness :
  unique_reviewer_emails
    [UserDict None (Some (py "a@x")); UserDict None (Some (py "b@x"));
     UserDict None (Some (py "a@x"))] (py "author@x")
  = unique_reviewer_emails
      [UserDict None (Some (py "b@x")); UserDict None (Some (py "a@x"))]
      (py "author@x").
Proof.
  apply unique_reviewer_emails_order_free. intros rv.
  rewrite !elem_of_cons, !elem_of_nil. tauto.
Defined.

(** ** Cycle times: what the enriched frame keeps *)

Lemma clean_column_range col i raw v :
  col !! i = Some raw →
  default None (clean_column col !! i) = Some v →
  raw = Some v ∧ (0 <= v)%Q ∧ (v <= 720)%Q.
Proof.
  intros Hraw. rewrite clean_column_lookup, Hraw. cbn.
  destruct raw as [w |]; [| discriminate].
  destruct (Qltb w 0) eqn:Hneg; [discriminate |]. cbn.
  destruct (Qltb 720 w) eqn:Hbig; [discriminate |].
  intros [= <-]. apply Qltb_false in Hneg, Hbig. done.
Qed.

(** X16: every duration present in the result is the difference of its
    two timestamps in hours and lies between 0 and 720 hours. *)
Theorem durations_in_range (df : list task) (i : nat) (r : cycle_row) (v : Q) :
  calculate_cycle_times df !! i = Some r →
  (hours_claimed_to_review r = Some v →
     hours_between (time_claimed (row_task r))
       (time_ready_for_review (row_task r)) = Some v
     ∧ (0 <= v)%Q ∧ (v <= 720)%Q)
  ∧ (hours_review_to_merged r = Some v →
     hours_between (time_ready_for_review (row_task r))
       (time_merged (row_task r)) = Some v
     ∧ (0 <= v)%Q ∧ (v <= 720)%Q)
  ∧ (hours_total_cycle r = Some v →
     hours_between (time_claimed (row_task r)) (time_merged (row_task r)) = Some v
     ∧ (0 <= v)%Q ∧ (v <= 720)%Q).
Proof.
  intros Hr.
  destruct (df !! i) as [t |] eqn:Ht.
  2: { unfold calculate_cycle_times in Hr.
       rewrite list_lookup_imap, Ht in Hr. discriminate. }
  rewrite (calculate_cycle_times_lookup _ _ _ Ht) in Hr.
  injection Hr as <-.
  cbn [row_task hours_claimed_to_review hours_review_to_merged hours_total_cycle].
  split; [| split]; intros Hv;
    (eapply clean_column_range in Hv;
       [| rewrite list_lookup_fmap, Ht; reflexivity]);
    exact Hv.
Qed.

Lemma durations_in_range_witness :
  hours_between (Some (5 * hour_ns)%Z) (Some (7 * hour_ns)%Z)
    = Some (inject_Z (7 * hour_ns - 5 * hour_ns) / inject_Z (10 ^ 9) / 3600)%Q
  ∧ (0 <= inject_Z (7 * hour_ns - 5 * hour_ns) / inject_Z (10 ^ 9) / 3600)%Q
  ∧ (inject_Z (7 * hour_ns - 5 * hour_ns) / inject_Z (10 ^ 9) / 3600 <= 720)%Q.
Proof.
  pose proof (durations_in_range
    [timed_task (Some (5 * hour_ns)%Z) (Some (7 * hour_ns)%Z) None] 0 _
    (inject_Z (7 * hour_ns - 5 * hour_ns) / inject_Z (10 ^ 9) / 3600)%Q
    (calculate_cycle_times_lookup
       [timed_task (Some (5 * hour_ns)%Z) (Some (7 * hour_ns)%Z) None] 0
       (timed_task (Some (5 * hour_ns)%Z) (Some (7 * hour_ns)%Z) None) eq_refl))
    as (Hwork & _ & _).
  exact (Hwork eq_refl).
Defined.

Lemma hours_between_add a b c :
  (inject_Z (c - a) / inject_Z (10 ^ 9) / 3600
   == inject_Z (b - a) / inject_Z (10 ^ 9) / 3600
      + inject_Z (c - b) / inject_Z (10 ^ 9) / 3600)%Q.
Proof.
  replace (c - a)%Z with ((b - a) + (c - b))%Z by lia.
  rewrite inject_Z_plus. field.
  all: repeat split; intros H; vm_compute in H; discriminate H.
Qed.

(** X17: the three durations of a task are consistent: when the work time
    and the review time are both present, the total cycle time is their
    sum if that is at most 720 hours, and is missing otherwise. *)
Theorem total_is_work_plus_review (df : list task) (i : nat) (r : cycle_row)
  (w v : Q) :
  calculate_cycle_times df !! i = Some r →
  hours_claimed_to_review r = Some w →
  hours_review_to_merged r = Some v →
  ((w + v <= 720)%Q → ∃ t, hours_total_cycle r = Some t ∧ (t == w + v)%Q)
  ∧ ((720 < w + v)%Q → hours_total_cycle r = None).
Proof.
  intros Hr Hw Hv.
  destruct (durations_in_range df i r w Hr) as (Hwork & _ & _).
  destruct (durations_in_range df i r v Hr) as (_ & Hreview & _).
  destruct (Hwork Hw) as (Hrw & Hw0 & _).
  destruct (Hreview Hv) as (Hrv & Hv0 & _). clear Hwork Hreview.
  destruct (df !! i) as [t |] eqn:Ht.
  2: { unfold calculate_cycle_times in Hr.
       rewrite list_lookup_imap, Ht in Hr. discriminate. }
  rewrite (calculate_cycle_times_lookup _ _ _ Ht) in Hr.
  injection Hr as <-.
  cbn [row_task hours_claimed_to_review hours_review_to_merged
       hours_total_cycle] in *.
  destruct (time_claimed t) as [a |] eqn:Hta,
    (time_ready_for_review t) as [b |] eqn:Htb,
    (time_merged t) as [c |] eqn:Htc;
    cbn [hours_between] in Hrw, Hrv; try discriminate.
  injection Hrw as Hrw. injection Hrv as Hrv.
  pose proof (hours_between_add a b c) as Hadd. rewrite Hrw, Hrv in Hadd.
  pose proof (clean_column_filtered
    ((λ t, hours_between (time_claimed t) (time_merged t)) <$> df) i
    (hours_between (Some a) (Some c))) as Hfilter.
  rewrite list_lookup_fmap, Ht in Hfilter. cbn [fmap option_fmap option_map] in Hfilter.
  rewrite Hta, Htc in Hfilter.
  specialize (Hfilter eq_refl) as (_ & Hbig & Hkeep).
  split.
  - intros Hle. eexists. split; [| exact Hadd].
    apply Hkeep; rewrite Hadd; [| exact Hle].
    replace 0%Q with (0 + 0)%Q by reflexivity. by apply Qplus_le_compat.
  - intros Hgt. apply Hbig. by rewrite Hadd.
Qed.

Lemma total_is_work_plus_review_witness :
  ∃ t, Some (inject_Z (9 * hour_ns - 5 * hour_ns) / inject_Z (10 ^ 9) / 3600)%Q
         = Some t
       ∧ (t == inject_Z (7 * hour_ns - 5 * hour_ns) / inject_Z (10 ^ 9) / 3600
              + inject_Z (9 * hour_ns - 7 * hour_ns) / inject_Z (10 ^ 9) / 3600)%Q.
Proof.
  destruct (total_is_work_plus_review
    [timed_task (Some (5 * hour_ns)%Z) (Some (7 * hour_ns)%Z)
       (Some (9 * hour_ns)%Z)] 0 _
    (inject_Z (7 * hour_ns - 5 * hour_ns) / inject_Z (10 ^ 9) / 3600)%Q
    (inject_Z (9 * hour_ns - 7 * hour_ns) / inject_Z (10 ^ 9) / 3600)%Q
    (calculate_cycle_times_lookup
       [timed_task (Some (5 * hour_ns)%Z) (Some (7 * hour_ns)%Z)
          (Some (9 * hour_ns)%Z)] 0
       (timed_task (Some (5 * hour_ns)%Z) (Some (7 * hour_ns)%Z)
          (Some (9 * hour_ns)%Z)) eq_refl)
    eq_refl eq_refl) as [Hsum _].
  assert (inject_Z (7 * hour_ns - 5 * hour_ns) / inject_Z (10 ^ 9) / 3600
          + inject_Z (9 * hour_ns - 7 * hour_ns) / inject_Z (10 ^ 9) / 3600
          <= 720)%Q as Hle by (vm_compute; discriminate).
  destruct (Hsum Hle) as [total Htotal].
  exists total. exact Htotal.
Defined.

(** X18: a first-task flag is only ever set on a row with a known author
    and a known claimed timestamp. *)
Theorem flagged_has_claim (df : list task) (j : nat) :
  flagged df j →
  ∃ t a c, df !! j = Some t ∧ expert_name t = Some a ∧ time_claimed t = Some c.
Proof.
  intros Hflag.
  destruct (df !! j) as [t |] eqn:Ht.
  2: { destruct Hflag as (r & Hr & _). unfold calculate_cycle_times in Hr.
       rewrite list_lookup_imap, Ht in Hr. discriminate. }
  destruct (proj1 (flagged_best _ _ _ Ht) Hflag) as (a & c & Ha & Hbest).
  pose proof (best_claim_inv df a) as Hinv. rewrite Hbest in Hinv.
  destruct Hinv as [(t' & Ht' & _ & Hc) _].
  exists t, a, c. split; [reflexivity |]. split; [exact Ha | congruence].
Qed.

Lemma flagged_has_claim_witness :
  ∃ t a c,
    [task_of (Some (py "W")) (Some 20%Z); task_of (Some (py "W")) (Some 10%Z)]
      !! 1 = Some t
    ∧ expert_name t = Some a ∧ time_claimed t = Some c.
Proof.
  apply flagged_has_claim.
  eapply flagged_lookup; [reflexivity |]. vm_compute. reflexivity.
Defined.

(** ** Counting the first tasks *)

Lemma count_true_insert (l : list bool) : ∀ i,
  l !! i = Some false →
  length (filter (λ b, b = true) (<[i := true]> l))
    = S (length (filter (λ b, b = true) l)).
Proof.
  induction l as [| b l IH]; intros i Hi; [discriminate |].
  destruct i as [| i]; cbn in Hi.
  - injection Hi as ->. change (<[0 := true]> (false :: l)) with (true :: l).
    rewrite !filter_cons. rewrite decide_True by reflexivity.
    rewrite decide_False by discriminate. reflexivity.
  - change (<[S i := true]> (b :: l)) with (b :: <[i := true]> l).
    rewrite !filter_cons.
    destruct (decide (b = true)); cbn [length]; rewrite (IH i Hi); reflexivity.
Qed.

Lemma best_claim_row df a i c :
  best_claim df a = Some (i, c) →
  ∃ t, df !! i = Some t ∧ expert_name t = Some a ∧ time_claimed t = Some c.
Proof.
  intros Hbest. pose proof (best_claim_inv df a) as Hinv.
  rewrite Hbest in Hinv. apply Hinv.
Qed.

Lemma best_claim_is_Some df a :
  is_Some (best_claim df a) ↔ ∃ j c, claimed_by df a j c.
Proof.
  pose proof (best_claim_inv df a) as Hinv. split.
  - intros [[i c] Hbest]. rewrite Hbest in Hinv. exists i, c. apply Hinv.
  - intros (j & c & Hj). destruct (best_claim df a) as [best |]; [by eexists |].
    exfalso. exact (Hinv _ _ Hj).
Qed.

Lemma foldl_mark_first_count df experts : ∀ flags,
  NoDup experts →
  (∀ a i c, a ∈ experts → best_claim df a = Some (i, c) →
            flags !! i = Some false) →
  length (filter (λ b, b = true) (foldl (mark_first df) flags experts))
    = length (filter (λ b, b = true) flags)
      + length (filter (λ a, is_Some (best_claim df a)) experts).
Proof.
  induction experts as [| a experts IH]; intros flags Hnd Hfalse; cbn [foldl].
  { cbn. lia. }
  apply NoDup_cons in Hnd as [Ha Hnd].
  rewrite IH; [| exact Hnd |].
  - rewrite filter_cons, mark_first_best.
    destruct (best_claim df a) as [[i c] |] eqn:Hbest.
    + rewrite decide_True by (by eexists).
      rewrite (count_true_insert flags i)
        by (eapply Hfalse; [left | exact Hbest]).
      cbn [length]. lia.
    + rewrite decide_False by (intros [? [=]]). lia.
  - intros a' i' c' Ha' Hbest'. rewrite mark_first_best.
    destruct (best_claim df a) as [[i c] |] eqn:Hbest.
    2: { eapply Hfalse; [by right | exact Hbest']. }
    rewrite list_lookup_insert_ne.
    { eapply Hfalse; [by right | exact Hbest']. }
    intros ->.
    destruct (best_claim_row _ _ _ _ Hbest) as (t & Ht & Hta & _).
    destruct (best_claim_row _ _ _ _ Hbest') as (t' & Ht' & Hta' & _).
    apply Ha. congruence.
Qed.

Lemma first_task_flags_length df : length (first_task_flags df) = length df.
Proof.
  unfold first_task_flags.
  assert (∀ experts flags,
            length (foldl (mark_first df) flags experts) = length flags) as Hlen.
  { induction experts as [| a experts IH]; intros flags; cbn [foldl];
      [reflexivity |]. rewrite IH. apply mark_first_length. }
  rewrite Hlen. apply length_replicate.
Qed.

Lemma is_first_task_column df :
  is_first_task <$> calculate_cycle_times df = first_task_flags df.
Proof.
  apply list_eq. intros i. rewrite list_lookup_fmap.
  destruct (df !! i) as [t |] eqn:Ht.
  - rewrite (calculate_cycle_times_lookup _ _ _ Ht). cbn.
    destruct (first_task_flags df !! i) as [b |] eqn:Hb; [reflexivity |].
    apply lookup_ge_None in Hb. rewrite first_task_flags_length in Hb.
    apply lookup_lt_Some in Ht. lia.
  - unfold calculate_cycle_times. rewrite list_lookup_imap, Ht. cbn.
    symmetry. apply lookup_ge_None. rewrite first_task_flags_length.
    by apply lookup_ge_None.
Qed.

Lemma count_flag_column (rows : list cycle_row) :
  length (filter (λ r, is_first_task r = true) rows)
    = length (filter (λ b, b = true) (is_first_task <$> rows)).
Proof.
  induction rows as [| r rows IH]; [reflexivity |].
  cbn [fmap list_fmap]. rewrite !filter_cons.
  destruct (decide (is_first_task r = true)); cbn [length]; by rewrite IH.
Qed.

Lemma elem_of_claimed_authors df a :
  a ∈ claimed_authors df ↔ ∃ j c, claimed_by df a j c.
Proof.
  unfold claimed_authors. rewrite elem_of_unique, list_elem_of_omap. split.
  - intros (t & Hin & Ht). apply list_elem_of_lookup in Hin as [j Hj].
    destruct (time_claimed t) as [c |] eqn:Hc; [| discriminate].
    exists j, c, t. done.
  - intros (j & c & t & Hj & Ha & Hc). exists t.
    split; [eapply list_elem_of_lookup_2, Hj |]. by rewrite Hc.
Qed.

(** X19: the number of rows flagged as first task is the number of
    distinct authors that have a task with a known claimed timestamp. *)
Theorem first_tasks_counted (df : list task) :
  count_first_tasks (calculate_cycle_times df) = length (claimed_authors df).
Proof.
  unfold count_first_tasks.
  rewrite count_flag_column, is_first_task_column. unfold first_task_flags.
  rewrite foldl_mark_first_count.
  - assert (filter (λ b : bool, b = true) (replicate (length df) false) = [])
      as ->.
    { induction (length df) as [| n IH]; [reflexivity |].
      cbn [replicate]. rewrite filter_cons, decide_False by discriminate.
      exact IH. }
    cbn [length plus]. apply Permutation_length, NoDup_Permutation.
    + apply NoDup_filter, NoDup_unique.
    + apply NoDup_unique.
    + intros a. rewrite list_elem_of_filter, best_claim_is_Some,
        elem_of_claimed_authors, elem_of_unique, list_elem_of_omap.
      split; [by intros [H _] |]. intros (j & c & t & Hj & Ha & Hc).
      split; [exists j, c, t; done |].
      exists t. split; [eapply list_elem_of_lookup_2, Hj | exact Ha].
  - apply NoDup_unique.
  - intros a i c _ Hbest.
    destruct (best_claim_row _ _ _ _ Hbest) as (t & Ht & _).
    apply lookup_replicate_2. eapply lookup_lt_Some, Ht.
Qed.

(** ** Cycle-time tab *)

Lemma sum_flags_count (rows : list cycle_row) :
  sum_list_with (λ r, if is_first_task r then 1 else 0) rows
    = length (filter (λ r, is_first_task r = true) rows).
Proof.
  induction rows as [| r rows IH]; [reflexivity |].
  cbn [sum_list_with]. rewrite filter_cons, IH.
  destruct (is_first_task r).
  - rewrite decide_True by reflexivity. reflexivity.
  - rewrite decide_False by discriminate. reflexivity.
Qed.

(** X20: the caption of the cycle-time tab adds up: the merged tasks are
    the first-time tasks among them together with the tasks of the frame
    without first tasks, and that frame is empty exactly when every merged
    task is a first task. *)
Theorem merged_tasks_partition (filtered_tasks : list cycle_row) :
  length (cycle_df filtered_tasks)
    = first_task_count filtered_tasks
      + length (cycle_df_no_first filtered_tasks)
  ∧ (cycle_df_no_first filtered_tasks = []
     ↔ first_task_count filtered_tasks = length (cycle_df filtered_tasks)).
Proof.
  unfold first_task_count, cycle_df_no_first. rewrite sum_flags_count.
  assert (∀ rows : list cycle_row,
            length rows
            = length (filter (λ r, is_first_task r = true) rows)
              + length (filter (λ r, is_first_task r = false) rows)) as Hsplit.
  { induction rows as [| r rows IH]; [reflexivity |].
    rewrite !filter_cons. destruct (is_first_task r).
    - rewrite decide_True by reflexivity. rewrite decide_False by discriminate.
      cbn [length]. lia.
    - rewrite decide_False by discriminate. rewrite decide_True by reflexivity.
      cbn [length]. lia. }
  split; [apply Hsplit |].
  pose proof (Hsplit (cycle_df filtered_tasks)) as Hlen. split.
  - intros Hnil. rewrite Hnil in Hlen. cbn [length] in Hlen. lia.
  - intros Heq. apply length_zero_iff_nil. lia.
Qed.

Lemma Qsum_bounds (l : list Q) :
  Forall plausible l →
  (0 <= Qsum l)%Q ∧ (Qsum l <= 720 * inject_Z (Z.of_nat (length l)))%Q.
Proof.
  induction 1 as [| v l [Hlo Hhi] _ [IHlo IHhi]].
  { split; [apply Qle_refl | vm_compute; discriminate]. }
  cbn [Qsum foldr length]. fold (Qsum l). split.
  - replace 0%Q with (0 + 0)%Q by reflexivity. by apply Qplus_le_compat.
  - rewrite Nat2Z.inj_succ, <- Z.add_1_l, inject_Z_plus.
    assert (720 * (inject_Z 1 + inject_Z (Z.of_nat (length l)))
            == 720 + 720 * inject_Z (Z.of_nat (length l)))%Q as Heq by ring.
    rewrite Heq. by apply Qplus_le_compat.
Qed.

Lemma mean_plausible (col : list (option Q)) (m : Q) :
  Forall (λ cell, ∀ v, cell = Some v → plausible v) col →
  mean col = Some m →
  plausible m.
Proof.
  intros Hcol. unfold mean.
  assert (Forall plausible (omap id col)) as Hpresent.
  { apply Forall_forall. intros v Hv.
    apply list_elem_of_omap in Hv as (cell & Hin & Hcell). cbn in Hcell.
    exact (proj1 (Forall_forall _ _) Hcol _ Hin _ Hcell). }
  destruct (omap id col) as [| v present] eqn:Hp; [discriminate |].
  intros [= <-]. destruct (Qsum_bounds _ Hpresent) as [Hlo Hhi].
  assert (0 < inject_Z (Z.of_nat (length (v :: present))))%Q as Hpos.
  { rewrite <- (Zlt_Qlt 0). cbn [length]. lia. }
  split.
  - apply Qle_shift_div_l; [exact Hpos |]. by rewrite Qmult_0_l.
  - apply Qle_shift_div_r; [exact Hpos | exact Hhi].
Qed.

Lemma calculate_cycle_times_plausible (df : list task) (r : cycle_row) :
  r ∈ calculate_cycle_times df →
  (∀ v, hours_claimed_to_review r = Some v → plausible v)
  ∧ (∀ v, hours_review_to_merged r = Some v → plausible v)
  ∧ (∀ v, hours_total_cycle r = Some v → plausible v).
Proof.
  intros Hin. apply list_elem_of_lookup in Hin as [i Hi].
  destruct (df !! i) as [t |] eqn:Ht.
  2: { unfold calculate_cycle_times in Hi.
       rewrite list_lookup_imap, Ht in Hi. discriminate. }
  rewrite (calculate_cycle_times_lookup _ _ _ Ht) in Hi. injection Hi as <-.
  cbn [hours_claimed_to_review hours_review_to_merged hours_total_cycle].
  split; [| split]; intros v Hv;
    (eapply clean_column_range in Hv;
       [| rewrite list_lookup_fmap, Ht; reflexivity]);
    apply Hv.
Qed.

(** X21: the averages of the cycle-time tab stay in range: over the
    merged tasks, with or without the first tasks, an average work, review
    or total time that is shown lies between 0 and 720 hours. *)
Theorem cycle_averages_plausible (df : list task) (frame : list cycle_row)
  (m : Q) :
  frame = cycle_df (calculate_cycle_times df)
  ∨ frame = cycle_df_no_first (calculate_cycle_times df) →
  (avg_claim_to_review frame = Some m → plausible m)
  ∧ (avg_review_to_merged frame = Some m → plausible m)
  ∧ (avg_total frame = Some m → plausible m).
Proof.
  intros Hframe.
  assert (∀ r, r ∈ frame → r ∈ calculate_cycle_times df) as Hsub.
  { intros r Hr. destruct Hframe as [-> | ->].
    - unfold cycle_df in Hr. by apply list_elem_of_filter in Hr as [_ Hr].
    - unfold cycle_df_no_first, cycle_df in Hr.
      apply list_elem_of_filter in Hr as [_ Hr].
      by apply list_elem_of_filter in Hr as [_ Hr]. }
  unfold avg_claim_to_review, avg_review_to_merged, avg_total.
  split; [| split]; apply mean_plausible, Forall_fmap, Forall_forall;
    intros r Hr v Hv;
    destruct (calculate_cycle_times_plausible df r (Hsub r Hr))
      as (Hwork & Hreview & Htotal);
    [exact (Hwork v Hv) | exact (Hreview v Hv) | exact (Htotal v Hv)].
Qed.

Lemma cycle_averages_plausible_witness :
  plausible (((inject_Z (9 * hour_ns - 5 * hour_ns) / inject_Z (10 ^ 9) / 3600)
              + 0) / inject_Z (Z.of_nat 1))%Q.
Proof.
  refine (proj2 (proj2 (cycle_averages_plausible
    [timed_task (Some (5 * hour_ns)%Z) (Some (7 * hour_ns)%Z)
       (Some (9 * hour_ns)%Z)] _ _ (or_introl eq_refl))) _).
  reflexivity.
Defined.

(** ** The metrics table *)

Lemma metric_of_expert time_logs tasks expert :
  m_expert (metric_of time_logs tasks expert) = expert.
Proof. unfold metric_of. destruct tasks; reflexivity. Qed.

Lemma expert_metrics_experts time_logs tasks :
  m_expert <$> expert_metrics time_logs tasks
    = filter (λ expert, falsy expert = false)
        (elements (all_experts time_logs tasks)).
Proof.
  unfold expert_metrics. rewrite <- list_fmap_compose.
  erewrite list_fmap_ext; [apply list_fmap_id |].
  intros i expert _. apply metric_of_expert.
Qed.

(** X22: the metrics table has one row for every non-empty name that
    occurs in the time logs or as author or reviewer of a task, no row for
    any other name, and no name twice. *)
Theorem expert_metrics_rows (time_logs : list (pystr * Q))
  (tasks : list cycle_row) :
  NoDup (m_expert <$> expert_metrics time_logs tasks)
  ∧ ∀ name,
      name ∈ m_expert <$> expert_metrics time_logs tasks
      ↔ name ≠ []
        ∧ (name ∈ fst <$> time_logs
           ∨ (∃ r, r ∈ tasks ∧ expert_name (row_task r) = Some name)
           ∨ (∃ r, r ∈ tasks ∧ reviewer_name (row_task r) = Some name)).
Proof.
  rewrite expert_metrics_experts. split.
  { apply NoDup_filter, NoDup_elements. }
  intros name. rewrite list_elem_of_filter, elem_of_elements.
  unfold all_experts. rewrite !elem_of_union, !elem_of_list_to_set,
    !list_elem_of_omap.
  assert (falsy name = false ↔ name ≠ []) as ->.
  { destruct name; cbn; split; done. }
  split; (intros [Hne Hin]; split; [exact Hne |]); tauto.
Qed.

(** ** Merged tasks among written tasks *)

Lemma filter_length_le {A} (P Q : A → Prop) `{∀ x, Decision (P x)}
  `{∀ x, Decision (Q x)} (l : list A) :
  (∀ x, P x → Q x) → length (filter P l) ≤ length (filter Q l).
Proof.
  intros Himp. induction l as [| x l IH]; [reflexivity |].
  rewrite !filter_cons. destruct (decide (P x)) as [HP | HP].
  - rewrite decide_True by (by apply Himp). cbn [length]. lia.
  - destruct (decide (Q x)); cbn [length]; lia.
Qed.

Lemma merged_le_written tasks : merged_tasks tasks ≤ written_tasks tasks.
Proof.
  unfold merged_tasks, written_tasks. apply filter_length_le.
  intros r ->. unfold written_statuses. do 3 right. left.
Qed.

Lemma per_unit_le hours n k w o :
  (0 <= hours)%Q → k ≤ n →
  per_unit hours n = Some w → per_unit hours k = Some o → (w <= o)%Q.
Proof.
  intros Hh Hkn. destruct n as [| n]; [discriminate |].
  destruct k as [| k]; [discriminate |]. cbn [per_unit].
  intros [= <-] [= <-].
  assert (0 < inject_Z (Z.of_nat (S k)))%Q as Hk by (rewrite <- (Zlt_Qlt 0); lia).
  assert (0 < inject_Z (Z.of_nat (S n)))%Q as Hn by (rewrite <- (Zlt_Qlt 0); lia).
  apply Qle_shift_div_r; [exact Hn |].
  assert (0 <= hours / inject_Z (Z.of_nat (S k)))%Q as Hq.
  { apply Qle_shift_div_l; [exact Hk |]. by rewrite Qmult_0_l. }
  assert (hours == hours / inject_Z (Z.of_nat (S k)) * inject_Z (Z.of_nat (S k)))%Q
    as Heq.
  { field. intros H0. rewrite H0 in Hk. by apply Qlt_irrefl in Hk. }
  eapply Qle_trans; [rewrite Heq; apply Qle_refl |].
  rewrite (Qmult_comm _ (inject_Z (Z.of_nat (S k)))),
    (Qmult_comm _ (inject_Z (Z.of_nat (S n)))).
  apply Qmult_le_compat_r; [| exact Hq].
  rewrite <- Zle_Qle. lia.
Qed.

(** X23: a worker has at least as many written tasks as merged tasks, so
    a worker with an overall AHT also has a writer AHT, and with
    non-negative hours the writer AHT is not above the overall AHT. *)
Theorem writer_aht_below_overall (time_logs : list (pystr * Q))
  (tasks : list cycle_row) (m : expert_metric) (o : Q) :
  m ∈ expert_metrics time_logs tasks →
  m_overall_aht m = Some o →
  m_tasks_merged m ≤ m_tasks_written m
  ∧ ∃ w, m_writer_aht m = Some w
      ∧ ((0 <= m_hours_logged m)%Q → (w <= o)%Q).
Proof.
  intros Hm Ho. unfold expert_metrics in Hm.
  apply list_elem_of_fmap in Hm as (expert & -> & _).
  destruct (metric_of_ratios time_logs tasks expert) as (_ & _ & Hw & _ & Hov).
  assert (m_tasks_merged (metric_of time_logs tasks expert)
          ≤ m_tasks_written (metric_of time_logs tasks expert)) as Hle.
  { unfold metric_of. destruct tasks; cbn; [lia | apply merged_le_written]. }
  split; [exact Hle |]. rewrite Hov in Ho. rewrite Hw.
  destruct (m_tasks_merged (metric_of time_logs tasks expert)) as [| k] eqn:Hk;
    [discriminate |].
  destruct (m_tasks_written (metric_of time_logs tasks expert)) as [| n] eqn:Hn;
    [lia |].
  eexists. split; [reflexivity |].
  intros Hh. eapply per_unit_le; [exact Hh | exact Hle | reflexivity | exact Ho].
Qed.

Lemma writer_aht_below_overall_witness :
  m_tasks_merged
    (metric_of [(py "W", 6%Q)]
       (calculate_cycle_times [timed_task None None None]) (py "W"))
  ≤ m_tasks_written
      (metric_of [(py "W", 6%Q)]
         (calculate_cycle_times [timed_task None None None]) (py "W")).
Proof.
  refine (proj1 (writer_aht_below_overall [(py "W", 6%Q)]
            (calculate_cycle_times [timed_task None None None]) _
            ((6 + 0) / inject_Z (Z.of_nat 1))%Q _ _)).
  - vm_compute. left.
  - reflexivity.
Defined.

(** ** Excluded workers *)

Lemma hours_outside_excluded_drop name h logs logs' :
  name ∈ EXCLUDED_FROM_AHT →
  hours_outside_excluded (logs ++ (name, h) :: logs')
    = hours_outside_excluded (logs ++ logs').
Proof.
  intros Hex. unfold EXCLUDED_FROM_AHT in Hex.
  apply list_elem_of_singleton in Hex as ->.
  unfold hours_outside_excluded. rewrite !filter_app, filter_cons.
  cbn [fst]. rewrite decide_False by (intros Hne; by apply Hne). reflexivity.
Qed.

(** X24: the hours of an excluded worker play no part in the global AHT
    figures: with or without a time-log row of such a worker the three
    figures are the same. *)
Theorem excluded_hours_ignored (name : pystr) (h : Q)
  (logs logs' : list (pystr * Q)) (tasks : list cycle_row) :
  name ∈ EXCLUDED_FROM_AHT →
  writer_aht_overall (logs ++ (name, h) :: logs') tasks
    = writer_aht_overall (logs ++ logs') tasks
  ∧ reviewer_aht_overall (logs ++ (name, h) :: logs') tasks
    = reviewer_aht_overall (logs ++ logs') tasks
  ∧ overall_aht (logs ++ (name, h) :: logs') tasks
    = overall_aht (logs ++ logs') tasks.
Proof.
  intros Hex.
  unfold writer_aht_overall, reviewer_aht_overall, overall_aht.
  rewrite !total_hours_outside_excluded,
    (hours_outside_excluded_drop _ _ _ _ Hex).
  repeat split; reflexivity.
Qed.

Lemma excluded_hours_ignored_witness :
  writer_aht_overall ([(py "W", 6%Q)] ++ (py "Mahir Bansal", 40%Q) :: [])
    (calculate_cycle_times [timed_task None None None])
  = writer_aht_overall ([(py "W", 6%Q)] ++ [])
      (calculate_cycle_times [timed_task None None None]).
Proof.
  refine (proj1 (excluded_hours_ignored (py "Mahir Bansal") 40%Q
            [(py "W", 6%Q)] [] _ _)).
  vm_compute. left.
Defined.

(** ** Mock data *)

Lemma mock_time_series_lookup dates i date :
  dates !! i = Some date →
  mock_time_series dates !! i =
    Some {| mp_date := date;
            mp_hours_logged := 5 + Z.of_nat i mod 8;
            mp_reviews_done := 10 + Z.of_nat i mod 15;
            mp_writing_units_done := 2 + Z.of_nat i mod 5;
            mp_pass_rate := 88 + Z.of_nat i mod 10;
            mp_tasks_completed := 3 + Z.of_nat i mod 6;
            mp_aht := 10 + Z.of_nat i mod 8 |}%Z.
Proof.
  intros Hi. unfold mock_time_series. rewrite list_lookup_imap, Hi. reflexivity.
Qed.

(** X25: the mock time series has one entry per day, in order, with
    values in fixed ranges (the pass rate from 88 to 97, the AHT from 10
    to 17, and so on), and its values repeat every 120 days. *)
Theorem mock_time_series_shape (dates : list pystr) :
  mp_date <$> mock_time_series dates = dates
  ∧ (∀ p, p ∈ mock_time_series dates →
       (5 ≤ mp_hours_logged p ≤ 12)%Z ∧ (10 ≤ mp_reviews_done p ≤ 24)%Z
       ∧ (2 ≤ mp_writing_units_done p ≤ 6)%Z ∧ (88 ≤ mp_pass_rate p ≤ 97)%Z
       ∧ (3 ≤ mp_tasks_completed p ≤ 8)%Z ∧ (10 ≤ mp_aht p ≤ 17)%Z)
  ∧ ∀ i p q, mock_time_series dates !! i = Some p →
             mock_time_series dates !! (i + 120) = Some q →
             mock_values p = mock_values q.
Proof.
  split; [| split].
  - apply list_eq. intros i. rewrite list_lookup_fmap.
    destruct (dates !! i) as [date |] eqn:Hi.
    + rewrite (mock_time_series_lookup _ _ _ Hi). reflexivity.
    + unfold mock_time_series. rewrite list_lookup_imap, Hi. reflexivity.
  - intros p Hp. apply list_elem_of_lookup in Hp as [i Hp].
    destruct (dates !! i) as [date |] eqn:Hi.
    2: { unfold mock_time_series in Hp.
         rewrite list_lookup_imap, Hi in Hp. discriminate. }
    rewrite (mock_time_series_lookup _ _ _ Hi) in Hp. injection Hp as <-.
    cbn. pose proof (Z.mod_pos_bound (Z.of_nat i) 8).
    pose proof (Z.mod_pos_bound (Z.of_nat i) 15).
    pose proof (Z.mod_pos_bound (Z.of_nat i) 5).
    pose proof (Z.mod_pos_bound (Z.of_nat i) 10).
    pose proof (Z.mod_pos_bound (Z.of_nat i) 6). lia.
  - intros i p q Hp Hq.
    destruct (dates !! i) as [date |] eqn:Hi.
    2: { unfold mock_time_series in Hp.
         rewrite list_lookup_imap, Hi in Hp. discriminate. }
    destruct (dates !! (i + 120)) as [date' |] eqn:Hi'.
    2: { unfold mock_time_series in Hq.
         rewrite list_lookup_imap, Hi' in Hq. discriminate. }
    rewrite (mock_time_series_lookup _ _ _ Hi) in Hp.
    rewrite (mock_time_series_lookup _ _ _ Hi') in Hq.
    injection Hp as <-. injection Hq as <-. unfold mock_values. cbn.
    rewrite Nat2Z.inj_add.
    replace (Z.of_nat 120) with (15 * 8)%Z at 1 by reflexivity.
    replace (Z.of_nat 120) with (8 * 15)%Z at 1 by reflexivity.
    replace (Z.of_nat 120) with (24 * 5)%Z at 1 by reflexivity.
    replace (Z.of_nat 120) with (12 * 10)%Z at 1 by reflexivity.
    replace (Z.of_nat 120) with (20 * 6)%Z at 1 by reflexivity.
    replace (Z.of_nat 120) with (15 * 8)%Z by reflexivity.
    rewrite !Z_mod_plus_full. reflexivity.
Qed.

(** ** Global figures *)

(** X26: the global figures are ordered like the per-worker ones: there
    are at least as many written as merged tasks, so when the overall AHT
    is shown the writer AHT is shown too, and with non-negative hours it is
    not above the overall AHT. *)
Theorem global_writer_aht_below_overall (time_logs : list (pystr * Q))
  (tasks : list cycle_row) (o : Q) :
  overall_aht time_logs tasks = Some o →
  merged_tasks tasks ≤ written_tasks tasks
  ∧ ∃ w, writer_aht_overall time_logs tasks = Some w
      ∧ ((0 <= total_hours_for_aht time_logs)%Q → (w <= o)%Q).
Proof.
  unfold overall_aht, writer_aht_overall. rewrite !ratio_per_unit.
  intros Ho. pose proof (merged_le_written tasks) as Hle.
  split; [exact Hle |].
  destruct (merged_tasks tasks) as [| k] eqn:Hk; [discriminate |].
  destruct (written_tasks tasks) as [| n] eqn:Hn; [lia |].
  eexists. split; [reflexivity |].
  intros Hh. eapply per_unit_le; [exact Hh | exact Hle | reflexivity | exact Ho].
Qed.

Lemma global_writer_aht_below_overall_witness :
  merged_tasks (calculate_cycle_times [timed_task None None None])
  ≤ written_tasks (calculate_cycle_times [timed_task None None None]).
Proof.
  refine (proj1 (global_writer_aht_below_overall [(py "W", 6%Q)]
            (calculate_cycle_times [timed_task None None None])
            ((6 + 0) / inject_Z (Z.of_nat 1))%Q _)).
  reflexivity.
Defined.
